(** * niftithings: resampling, orthogonalising and measuring NIfTI volumes

    A shallow embedding of [niftithings/nifti.py] and the properties of its
    functions [resample_nifti], [orthogonalize_nifti],
    [get_angles_between_axes] and [is_orthogonal_affine].

    Conventions of the embedding.
    - A Python call either returns a value or raises: [res A].
    - A numpy array is its shape together with its elements in row-major
      order: [ndarray A].
    - Voxel sizes, zoom factors and voxel values are exact rationals ([Q]);
      rounding error of the floating-point numbers is not modelled.  A zero
      divisor, on which Python raises [ZeroDivisionError] and numpy yields
      [inf] or [nan], is the outcome [Raise ZeroDivisionError].
    - The angle computations need [arccos], [sqrt] and [pi], and are stated
      over the real numbers; numpy's [nan] is [None].
    - Exact numbers stand for the floats of the code up to rounding.  Where
      rounding can decide between two outcomes (a comparison at its
      boundary, a ratio next to a tie of [round], the argument of [arccos]
      at 1, a truncation at an integer), the exact numbers and the floats
      can part.  The hypotheses [ordinary_length], [clear_of_parallel],
      [clearly_unsupported], [clearly_kept] and [clear_of_ties] keep a
      property away from such a boundary; the boundary case of [arccos] is
      worked out in binary64 ([arccos_argument_f64]).
    - Collaborators of other packages (scipy's [zoom] and [gaussian_filter],
      arraythings' [downsample_array], dicom2nifti's resampler) are
      variables of a section. *)

From Stdlib Require Import Floats.
From Stdlib Require Import String.
From Stdlib Require Import List ZArith QArith Qabs Qround Reals Qreals Lia Psatz Bool Arith.
Import ListNotations.

Close Scope R_scope.
Close Scope Q_scope.

(** ** Python outcomes *)

Module Py.

(** The messages of the [assert] statements of nifti.py.  The message of
    the mean-mode assertion is formatted with the tuple of input zooms, so
    it carries them. *)
Inductive assert_msg : Type :=
| DimensionsMismatch                       (* line 72 *)
| InconsistentAffineAndZooms               (* line 73 *)
| MeanOnlyDownsamples (input_zooms : list Q) (* line 77 *)
| OrderMustBeInt                           (* line 83 *)
| ReferenceZoomsDiffer                     (* line 91 *)
| NoMessage.                               (* line 148, a bare assert *)

Inductive exn : Type :=
| AssertionError (msg : assert_msg)
| ZeroDivisionError
| ValueError (what : string)      (* numpy: operands could not be broadcast *)
| ExternalError (what : string).  (* raised inside another package *)

Inductive res (A : Type) : Type :=
| Ok (a : A)
| Raise (e : exn).
Arguments Ok {A} a.
Arguments Raise {A} e.

Definition bind {A B} (m : res A) (k : A -> res B) : res B :=
  match m with
  | Ok a => k a
  | Raise e => Raise e
  end.

(** A call into another package: it returns, or raises an exception of that
    package. *)
Inductive ext (A : Type) : Type :=
| Returns (a : A)
| Fails (what : string).
Arguments Returns {A} a.
Arguments Fails {A} what.

Definition call {A} (r : ext A) : res A :=
  match r with
  | Returns a => Ok a
  | Fails what => Raise (ExternalError what)
  end.

Definition assert (b : bool) (msg : assert_msg) : res unit :=
  if b then Ok tt else Raise (AssertionError msg).

(** A list comprehension whose element expression can raise: elements are
    evaluated from left to right and the first exception escapes. *)
Fixpoint comprehension {A B} (f : A -> res B) (l : list A) : res (list B) :=
  match l with
  | [] => Ok []
  | a :: l' =>
      match f a with
      | Raise e => Raise e
      | Ok b =>
          match comprehension f l' with
          | Raise e => Raise e
          | Ok bs => Ok (b :: bs)
          end
      end
  end.

End Py.
Import Py.

Declare Scope py_scope.
Delimit Scope py_scope with py.
Notation "x <- m ;; k" := (Py.bind m (fun x => k))
(at level 61, m at next level, right associativity) : py_scope.
Notation "' pat <- m ;; k" := (Py.bind m (fun x => match x with pat => k end))
(at level 61, pat pattern, m at next level, right associativity) : py_scope.
Notation "m ;; k" := (Py.bind m (fun _ => k))
(at level 61, right associativity) : py_scope.

(** ** Orthogonalizer: [orthogonalize_nifti] (nifti.py, lines 106-129) *)

Module Orthogonalizer.

(** The two process-wide settings of [dicom2nifti.settings] that the
    function touches. *)
Record settings : Type := {
  resample_padding : Z;
  resample_spline_interpolation_order : Z
}.

Definition defaults : settings :=
  {| resample_padding := 0; resample_spline_interpolation_order := 0 |}.

(** Code that reads and writes the settings and may raise.  When a call
    raises, the settings stay as they were at that moment. *)
Definition M (A : Type) : Type := settings -> res A * settings.

Definition ret {A} (a : A) : M A := fun s => (Ok a, s).

Definition bind {A B} (m : M A) (k : A -> M B) : M B :=
  fun s =>
    match m s with
    | (Ok a, s') => k a s'
    | (Raise e, s') => (Raise e, s')
    end.

Definition set_resample_padding (v : Z) : M unit :=
  fun s => (Ok tt, {| resample_padding := v;
                      resample_spline_interpolation_order :=
                        resample_spline_interpolation_order s |}).

Definition set_resample_spline_interpolation_order (v : Z) : M unit :=
  fun s => (Ok tt, {| resample_padding := resample_padding s;
                      resample_spline_interpolation_order := v |}).

Declare Scope d2n_scope.
Delimit Scope d2n_scope with d2n.
Notation "x <- m ;; k" := (bind m (fun x => k))
  (at level 61, m at next level, right associativity) : d2n_scope.
Notation "m ;; k" := (bind m (fun _ => k))
  (at level 61, right associativity) : d2n_scope.

Section WithResampler.

Context {image : Type}.

(** [dicom2nifti.resample.resample_nifti_images]: reads the settings, may
  change them, may raise. *)
Variable resample_nifti_images : list image -> M (list image).

Definition orthogonalize_nifti (img : image)
  (padding spline_order : Z) : M (list image) :=
  (set_resample_padding padding ;;
   set_resample_spline_interpolation_order spline_order ;;
   orthogonal_nii <- resample_nifti_images [img] ;;
   set_resample_spline_interpolation_order 0 ;;
   set_resample_padding 0 ;;
   ret orthogonal_nii)%d2n.

(** The settings the resampler is called with. *)
Definition configured (padding spline_order : Z) : settings :=
  {| resample_padding := padding;
   resample_spline_interpolation_order := spline_order |}.

(** X1: When the resampler returns, the defaults are back and its result is
  handed on. *)
Lemma orthogonalize_restores_on_return img padding spline_order s0 r s1 :
  resample_nifti_images [img] (configured padding spline_order) = (Ok r, s1) ->
  orthogonalize_nifti img padding spline_order s0 = (Ok r, defaults).
Proof.
  intros Hcall. unfold orthogonalize_nifti, bind. cbn.
  unfold configured in Hcall. rewrite Hcall. reflexivity.
Qed.

(** When the resampler raises, the exception escapes at once and the
  two restoring calls are skipped: the settings stay as the resampler
  left them. *)
Lemma orthogonalize_skips_restore_on_raise img padding spline_order s0 e s1 :
  resample_nifti_images [img] (configured padding spline_order) = (Raise e, s1) ->
  orthogonalize_nifti img padding spline_order s0 = (Raise e, s1).
Proof.
  intros Hcall. unfold orthogonalize_nifti, bind. cbn.
  unfold configured in Hcall. rewrite Hcall. reflexivity.
Qed.

End WithResampler.

(** A resampler that cannot handle its input: it raises and leaves the
    settings alone. *)
Definition raising_resampler (imgs : list unit) : M (list unit) :=
  fun s => (Raise (ExternalError "resample_nifti_images"), s).

(** A resampler that reports the padding it ran under as the number of
    images it returns, and leaves other settings behind. *)
Definition probing_resampler (imgs : list unit) : M (list unit) :=
  fun s => (Ok (repeat tt (Z.to_nat (resample_padding s))),
            {| resample_padding := 99; resample_spline_interpolation_order := 77 |}).

(** C1, evaluated on the code: called with padding 5 and spline order 3
    while the settings are at their defaults, on an image on which the
    external resampler raises, [orthogonalize_nifti] lets the exception
    escape with the settings still at padding 5 and order 3, not at the
    defaults (0, 0). *)
Theorem orthogonalize_leaves_settings_when_resampler_raises :
  orthogonalize_nifti raising_resampler tt 5 3 defaults
    = (Raise (ExternalError "resample_nifti_images"),
       {| resample_padding := 5; resample_spline_interpolation_order := 3 |})
  /\ snd (orthogonalize_nifti raising_resampler tt 5 3 defaults) <> defaults.
Proof.
  split; [reflexivity | cbn; discriminate].
Qed.

(** *** Further properties *)

(** The settings in force before the call have no influence: neither on
    what the resampler sees, nor on the result, nor on the settings after
    the call. *)
Theorem orthogonalize_ignores_previous_settings {image : Type}
    (resample_nifti_images : list image -> M (list image)) (img : image)
    (padding spline_order : Z) (s0 s0' : settings) :
  orthogonalize_nifti resample_nifti_images img padding spline_order s0
  = orthogonalize_nifti resample_nifti_images img padding spline_order s0'.
Proof.
  unfold orthogonalize_nifti, bind, set_resample_padding,
    set_resample_spline_interpolation_order.
  reflexivity.
Qed.

(** Settings (7, 2) before the call, a resampler that changes them: three
    images come back (the padding asked for), under the defaults. *)
Lemma orthogonalize_restores_on_return_witness :
  orthogonalize_nifti probing_resampler tt 3 1
    {| resample_padding := 7; resample_spline_interpolation_order := 2 |}
  = (Ok [tt; tt; tt], defaults).
Proof.
  apply (orthogonalize_restores_on_return probing_resampler tt 3 1
           {| resample_padding := 7; resample_spline_interpolation_order := 2 |}
           [tt; tt; tt]
           {| resample_padding := 99; resample_spline_interpolation_order := 77 |}).
  reflexivity.
Defined.

End Orthogonalizer.

(** ** numpy arrays *)

Module Numpy.

(** An array: its shape and its elements in row-major (C) order. *)
Record ndarray (A : Type) : Type := {
  shape : list nat;
  data : list A
}.
Arguments shape {A} _.
Arguments data {A} _.

(** Number of elements of an array of shape [s]. *)
Definition size (s : list nat) : nat := fold_right Nat.mul 1 s.

(** Position of the element at index [idx] in the row-major data. *)
Fixpoint ravel (s idx : list nat) : nat :=
  match s, idx with
  | _ :: s', i :: idx' => i * size s' + ravel s' idx'
  | _, _ => 0
  end.

(** All indices of an array of shape [s], in row-major order. *)
Fixpoint all_indices (s : list nat) : list (list nat) :=
  match s with
  | [] => [[]]
  | n :: s' => flat_map (fun i => map (cons i) (all_indices s')) (seq 0 n)
  end.

(** [idx] addresses an element of an array of shape [s]. *)
Definition in_bounds (s idx : list nat) : Prop := Forall2 lt idx s.

Fixpoint in_boundsb (s idx : list nat) : bool :=
  match s, idx with
  | [], [] => true
  | n :: s', i :: idx' => (i <? n) && in_boundsb s' idx'
  | _, _ => false
  end.

(** [a[idx]]; [d] stands in where the data is too short, which does not
    happen for an array numpy built. *)
Definition item {A} (d : A) (a : ndarray A) (idx : list nat) : A :=
  nth (ravel (shape a) idx) (data a) d.

(** [a[:, j]] of a two-dimensional array. *)
Definition column {A} (d : A) (a : ndarray A) (j : nat) : list A :=
  map (fun i => item d a [i; j]) (seq 0 (nth 0 (shape a) 0)).

(** [a[i, :]] of a two-dimensional array. *)
Definition row {A} (d : A) (a : ndarray A) (i : nat) : list A :=
  map (fun j => item d a [i; j]) (seq 0 (nth 1 (shape a) 0)).

(** Every array numpy builds has as many elements as its shape says. *)
Definition well_formed {A} (a : ndarray A) : Prop :=
  length (data a) = size (shape a).

(** *** Row-major indexing *)

Lemma length_flat_map_blocks {A B} (f : A -> list B) (m : nat) (l : list A) :
  (forall x, length (f x) = m) -> length (flat_map f l) = length l * m.
Proof.
  intros Hf. induction l as [|x l IH]; cbn.
  - reflexivity.
  - now rewrite length_app, Hf, IH.
Qed.

Lemma length_all_indices (s : list nat) : length (all_indices s) = size s.
Proof.
  induction s as [|n s IH]; cbn.
  - reflexivity.
  - rewrite (length_flat_map_blocks _ (size s)).
    + now rewrite length_seq.
    + intros i. now rewrite length_map.
Qed.

(** In a concatenation of blocks of one length, position [i * m + r] is
    position [r] of block [i]. *)
Lemma nth_flat_map_blocks {A B} (f : A -> list B) (m : nat) (dx : A) (d : B) :
  (forall x, length (f x) = m) ->
  forall (l : list A) (i r : nat),
    i < length l -> r < m ->
    nth (i * m + r) (flat_map f l) d = nth r (f (nth i l dx)) d.
Proof.
  intros Hf. induction l as [|x l IH]; intros i r Hi Hr; cbn in Hi.
  - lia.
  - cbn [flat_map]. destruct i as [|i].
    + cbn. apply app_nth1. now rewrite Hf.
    + rewrite app_nth2 by (rewrite Hf; cbn; lia).
      rewrite Hf. replace (S i * m + r - m) with (i * m + r) by (cbn; lia).
      cbn [nth]. apply IH; lia.
Qed.

Lemma in_bounds_cons (n i : nat) (s idx : list nat) :
  in_bounds (n :: s) (i :: idx) <-> i < n /\ in_bounds s idx.
Proof.
  unfold in_bounds. split.
  - intros H. inversion H; subst. now split.
  - intros [Hi H]. now constructor.
Qed.

Lemma in_boundsb_iff (s idx : list nat) :
  in_boundsb s idx = true <-> in_bounds s idx.
Proof.
  revert idx. induction s as [|n s IH]; intros [|i idx]; cbn [in_boundsb].
  - split; [constructor | reflexivity].
  - split; [discriminate | intros H; inversion H].
  - split; [discriminate | intros H; inversion H].
  - rewrite andb_true_iff, Nat.ltb_lt, IH, in_bounds_cons. reflexivity.
Qed.

Lemma ravel_lt (s idx : list nat) : in_bounds s idx -> ravel s idx < size s.
Proof.
  intros H. induction H as [|i n idx s Hi H IH].
  - cbn. lia.
  - cbn [ravel]. change (size (n :: s)) with (n * size s).
    assert (S i * size s <= n * size s) by (apply Nat.mul_le_mono_r; lia).
    lia.
Qed.

(** [ravel] numbers the indices in the order of [all_indices]. *)
Lemma nth_all_indices (s idx d : list nat) :
  in_bounds s idx -> nth (ravel s idx) (all_indices s) d = idx.
Proof.
  intros H. induction H as [|i n idx s Hi H IH].
  - reflexivity.
  - cbn [ravel all_indices].
    rewrite (nth_flat_map_blocks _ (size s) 0 d).
    + rewrite seq_nth by exact Hi. cbn [Nat.add].
      rewrite (nth_indep _ d (i :: d))
        by (rewrite length_map, length_all_indices; now apply ravel_lt).
      rewrite (map_nth (cons i)). now rewrite IH.
    + intros j. now rewrite length_map, length_all_indices.
    + now rewrite length_seq.
    + now apply ravel_lt.
Qed.

(** An array given by a function of the index holds, at each index, the
    value of the function. *)
Lemma item_tabulate {A} (d : A) (s : list nat) (f : list nat -> A) (idx : list nat) :
  in_bounds s idx ->
  item d {| shape := s; data := map f (all_indices s) |} idx = f idx.
Proof.
  intros H. unfold item. cbn [shape data].
  rewrite (nth_indep _ d (f []))
    by (rewrite length_map, length_all_indices; now apply ravel_lt).
  rewrite (map_nth f). now rewrite nth_all_indices.
Qed.

Lemma well_formed_tabulate {A} (s : list nat) (f : list nat -> A) :
  well_formed {| shape := s; data := map f (all_indices s) |}.
Proof.
  unfold well_formed. cbn. now rewrite length_map, length_all_indices.
Qed.

(** *** From positions back to indices *)

Lemma all_indices_in_bounds (s idx : list nat) :
  In idx (all_indices s) -> in_bounds s idx.
Proof.
  revert idx. induction s as [|n s IH]; intros idx Hin; cbn in Hin.
  - destruct Hin as [<-|[]]. constructor.
  - apply in_flat_map in Hin as [i [Hi Hin]].
    apply in_map_iff in Hin as [idx' [<- Hin']].
    apply in_seq in Hi. apply in_bounds_cons. split; [lia | now apply IH].
Qed.

(** The index at position [k] of [all_indices] has row-major position
    [k]. *)
Lemma ravel_nth_all_indices (s : list nat) (k : nat) (d : list nat) :
  k < size s -> ravel s (nth k (all_indices s) d) = k.
Proof.
  revert k d. induction s as [|n s IH]; intros k d Hk.
  - cbn in Hk. assert (k = 0) as -> by lia. reflexivity.
  - change (size (n :: s)) with (n * size s) in Hk.
    assert (Hpos : 0 < size s) by nia.
    assert (Hi : k / size s < n) by (apply Nat.Div0.div_lt_upper_bound; lia).
    assert (Hr : k mod size s < size s) by (apply Nat.mod_upper_bound; lia).
    assert (Ek : k = k / size s * size s + k mod size s).
    { rewrite Nat.mul_comm. apply Nat.div_mod_eq. }
    rewrite Ek at 1. cbn [all_indices].
    rewrite (nth_flat_map_blocks _ (size s) 0 d).
    + rewrite seq_nth by exact Hi. cbn [Nat.add].
      rewrite (nth_indep _ d (k / size s :: d))
        by (now rewrite length_map, length_all_indices).
      rewrite (map_nth (cons (k / size s))). cbn [ravel].
      rewrite IH by exact Hr. lia.
    + intros j. now rewrite length_map, length_all_indices.
    + now rewrite length_seq.
    + exact Hr.
Qed.

(** Reading a well-formed array index by index, in row-major order, gives
    back its data. *)
Lemma tabulate_items {A} (d : A) (a : ndarray A) :
  well_formed a -> map (item d a) (all_indices (shape a)) = data a.
Proof.
  intros Hwf. unfold well_formed in Hwf.
  apply (nth_ext _ _ d d).
  - now rewrite length_map, length_all_indices.
  - intros k Hk. rewrite length_map, length_all_indices in Hk.
    rewrite (nth_indep _ d (item d a []))
      by (now rewrite length_map, length_all_indices).
    rewrite (map_nth (item d a)). unfold item at 1.
    now rewrite ravel_nth_all_indices.
Qed.

End Numpy.
Import Numpy.

(** ** AffineGeometry: [get_angles_between_axes] and [is_orthogonal_affine]
    (nifti.py, lines 132-177) *)

Module Geometry.

Local Open Scope R_scope.

(** A numpy float: a real number, or [None] for a value that is not finite
    ([nan]; an infinity only arises as the argument of [arccos], which turns
    it into [nan]). *)
Definition npfloat : Type := option R.

Definition np_sum (l : list R) : R := fold_right Rplus 0 l.

(** [u * v] on two vectors of the same length. *)
Definition np_multiply (u v : list R) : list R :=
  map (fun p => fst p * snd p) (combine u v).

(** [np.linalg.norm] of a vector: the Euclidean norm. *)
Definition np_linalg_norm (v : list R) : R := sqrt (np_sum (np_multiply v v)).

(** Division of numpy floats: a zero divisor gives no exception. *)
Definition np_true_divide (x y : R) : npfloat :=
  if Req_dec_T y 0 then None else Some (x / y).

Definition np_arccos (x : npfloat) : npfloat :=
  match x with
  | Some v =>
      if Rle_dec (-1) v then if Rle_dec v 1 then Some (acos v) else None
      else None
  | None => None
  end.

(** [x * 180 / np.pi] *)
Definition to_degrees (x : npfloat) : npfloat :=
  option_map (fun v => v * 180 / PI) x.

(** The expression of lines 149-151 for two columns. *)
Definition angle_between (a b : list R) : npfloat :=
  np_arccos (np_true_divide (np_sum (np_multiply a b))
                            (np_linalg_norm a * np_linalg_norm b)).

Definition get_angles_between_axes (affine : ndarray R) (in_degrees : bool)
  : res (npfloat * npfloat * npfloat) :=
  (assert (if list_eq_dec Nat.eq_dec (shape affine) [4; 4]%nat then true else false)
          NoMessage ;;
   let xy := angle_between (column 0 affine 0) (column 0 affine 1) in
   let xz := angle_between (column 0 affine 0) (column 0 affine 2) in
   let yz := angle_between (column 0 affine 1) (column 0 affine 2) in
   if in_degrees
   then Ok (to_degrees xy, to_degrees xz, to_degrees yz)
   else Ok (xy, xz, yz))%py.

(** [np.abs(90 - angle) <= tol]; a comparison with [nan] is false. *)
Definition deviation_within (angle : npfloat) (tol : R) : bool :=
  match angle with
  | Some v => if Rle_dec (Rabs (90 - v)) tol then true else false
  | None => false
  end.

Definition is_orthogonal_affine (affine : ndarray R)
    (max_allowed_angles_in_degrees : R * R * R) : res bool :=
  ('(xy, xz, yz) <- get_angles_between_axes affine true ;;
   let '(t0, t1, t2) := max_allowed_angles_in_degrees in
   Ok (deviation_within xy t0 && deviation_within xz t1 && deviation_within yz t2))%py.

(** *** The specification's formula *)

(** The formula of the specification, written with the real functions
    themselves and with none of the definitions above. *)

(** The spatial part of axis [j] of an affine: the first three entries of
    column [j]. *)
Definition axis (a : ndarray R) (j : nat) : R * R * R :=
  (item 0 a [0; j]%nat, item 0 a [1; j]%nat, item 0 a [2; j]%nat).

Definition dot3 (u v : R * R * R) : R :=
  let '(u0, u1, u2) := u in
  let '(v0, v1, v2) := v in
  u0 * v0 + u1 * v1 + u2 * v2.

(** arccos(dot(u,v) / (|u| |v|)), times 180/pi when degrees are asked for. *)
Definition claimed_angle (u v : R * R * R) (in_degrees : bool) : R :=
  let t := acos (dot3 u v / (sqrt (dot3 u u) * sqrt (dot3 v v))) in
  if in_degrees then t * (180 / PI) else t.

(** A squared length that binary64 handles without overflow or underflow:
    the length itself lies between 1e-50 and 1e50. *)
Definition ordinary_length (s : R) : Prop := / 10 ^ 100 <= s <= 10 ^ 100.

(** Two vectors with dot product [d] and squared lengths [su] and [sv] are
    not parallel up to rounding: the cosine of their angle is at most
    1 - 1e-12 in absolute value, so that the quotient the code computes in
    binary64, which is off by some 1e-15, stays within the domain of
    [arccos]. *)
Definition clear_of_parallel (d su sv : R) : Prop :=
  d * d <= (1 - / 10 ^ 12) * (1 - / 10 ^ 12) * (su * sv).

(** A 4x4 matrix in the homogeneous form of an affine map: the last row is
    (0, 0, 0, 1). *)
Definition homogeneous (a : ndarray R) : Prop :=
  shape a = [4; 4]%nat /\ row 0 a 3 = [0; 0; 0; 1].

(** The specification's reading of [np.abs(90 - angle) <= tol]. *)
Definition deviation_le (angle : npfloat) (tol : R) : Prop :=
  match angle with
  | Some v => Rabs (90 - v) <= tol
  | None => False
  end.

(** *** Sample matrices *)

(** The identity affine. *)
Definition eye4 : ndarray R :=
  {| shape := [4; 4]%nat;
     data := [1; 0; 0; 0;
              0; 1; 0; 0;
              0; 0; 1; 0;
              0; 0; 0; 1] |}.

(** A 3x3 rotation-and-scale block handed over without its translation. *)
Definition eye3 : ndarray R :=
  {| shape := [3; 3]%nat;
     data := [1; 0; 0;
              0; 1; 0;
              0; 0; 1] |}.

(** A 4x4 array that is not in homogeneous form: the bottom entries of the
    first two columns are 1.  The code measures 60 degrees between these two
    columns, whereas their spatial parts are at a right angle. *)
Definition tilted_bottom_row : ndarray R :=
  {| shape := [4; 4]%nat;
     data := [1; 0; 0; 0;
              0; 1; 0; 0;
              0; 0; 1; 0;
              1; 1; 0; 1] |}.

(** The angle, when it is a number, lies between 0 and [hi]. *)
Definition angle_within (hi : R) (angle : npfloat) : Prop :=
  match angle with
  | Some v => 0 <= v <= hi
  | None => True
  end.

(** The squared Euclidean length of a vector. *)
Definition sqlen (v : list R) : R := np_sum (np_multiply v v).

(** The first three columns of the array have an ordinary length. *)
Definition axes_ordinary (a : ndarray R) : Prop :=
  forall j, (j < 3)%nat -> ordinary_length (sqlen (column 0 a j)).

(** No two of the first three columns are parallel up to rounding. *)
Definition axes_apart (a : ndarray R) : Prop :=
  forall i j, (i < j < 3)%nat ->
    clear_of_parallel (np_sum (np_multiply (column 0 a i) (column 0 a j)))
                      (sqlen (column 0 a i)) (sqlen (column 0 a j)).

(** Voxels of size 2 x 3 x 5 along the coordinate axes, with the origin at
    (7, 8, 9). *)
Definition scaled_shifted : ndarray R :=
  {| shape := [4; 4]%nat;
     data := [2; 0; 0; 7;
              0; 3; 0; 8;
              0; 0; 5; 9;
              0; 0; 0; 1] |}.

(** An affine whose third axis has collapsed. *)
Definition collapsed_axis : ndarray R :=
  {| shape := [4; 4]%nat;
     data := [1; 0; 0; 0;
              0; 1; 0; 0;
              0; 0; 0; 0;
              0; 0; 0; 1] |}.

(** The second axis leans towards the first: x and y enclose 45 degrees. *)
Definition skewed : ndarray R :=
  {| shape := [4; 4]%nat;
     data := [1; 1; 0; 0;
              0; 1; 0; 0;
              0; 0; 1; 0;
              0; 0; 0; 1] |}.

(** *** Lines 149-151 in binary64

    The expression of lines 149-151 with the floating-point operations of
    the code, up to the call of [np.arccos].  Sum and norm add from left to
    right; numpy and BLAS may add in another order, which changes a sum only
    where a partial sum is rounded. *)

Definition np_sum_f64 (l : list float) : float :=
  fold_left PrimFloat.add l 0%float.

Definition np_multiply_f64 (u v : list float) : list float :=
  map (fun p => PrimFloat.mul (fst p) (snd p)) (combine u v).

Definition np_linalg_norm_f64 (v : list float) : float :=
  PrimFloat.sqrt (np_sum_f64 (np_multiply_f64 v v)).

(** The argument that lines 149-151 hand to [np.arccos]. *)
Definition arccos_argument_f64 (a b : list float) : float :=
  PrimFloat.div (np_sum_f64 (np_multiply_f64 a b))
                (PrimFloat.mul (np_linalg_norm_f64 a) (np_linalg_norm_f64 b)).

(** The result of [np.arccos], in radians or converted to degrees: [nan]
    outside [-1, 1] and on [nan] (every comparison with [nan] is false), the
    arc cosine otherwise, which is not evaluated here. *)
Inductive angle_f64 : Type :=
| nan_f64
| arccos_of (x : float)
| arccos_in_degrees_of (x : float).

Definition np_arccos_f64 (x : float) : angle_f64 :=
  if (PrimFloat.leb (-1)%float x && PrimFloat.leb x 1%float)%bool
  then arccos_of x else nan_f64.

(** [x * 180 / np.pi]; [nan] stays [nan]. *)
Definition to_degrees_f64 (x : angle_f64) : angle_f64 :=
  match x with
  | arccos_of v => arccos_in_degrees_of v
  | other => other
  end.

(** Lines 148-157. *)
Definition get_angles_between_axes_f64 (affine : ndarray float) (in_degrees : bool)
  : res (angle_f64 * angle_f64 * angle_f64) :=
  (assert (if list_eq_dec Nat.eq_dec (shape affine) [4; 4]%nat then true else false)
          NoMessage ;;
   let col := column 0%float affine in
   let xy := np_arccos_f64 (arccos_argument_f64 (col 0%nat) (col 1%nat)) in
   let xz := np_arccos_f64 (arccos_argument_f64 (col 0%nat) (col 2%nat)) in
   let yz := np_arccos_f64 (arccos_argument_f64 (col 1%nat) (col 2%nat)) in
   if in_degrees
   then Ok (to_degrees_f64 xy, to_degrees_f64 xz, to_degrees_f64 yz)
   else Ok (xy, xz, yz))%py.

(** An affine whose first two axes point the same way, (1, 1, 1). *)
Definition parallel_axes_f64 : ndarray float :=
  {| shape := [4; 4]%nat;
     data := [1; 1; 0; 0;
              1; 1; 0; 0;
              1; 1; 1; 0;
              0; 0; 0; 1]%float |}.

(** *** Properties *)

Lemma column_4x4 (a : ndarray R) (j : nat) :
  shape a = [4; 4]%nat ->
  column 0 a j = [item 0 a [0; j]%nat; item 0 a [1; j]%nat;
                  item 0 a [2; j]%nat; item 0 a [3; j]%nat].
Proof. intros Hs. unfold column. rewrite Hs. reflexivity. Qed.

Lemma row_4x4 (a : ndarray R) (i : nat) :
  shape a = [4; 4]%nat ->
  row 0 a i = [item 0 a [i; 0]%nat; item 0 a [i; 1]%nat;
               item 0 a [i; 2]%nat; item 0 a [i; 3]%nat].
Proof. intros Hs. unfold row. rewrite Hs. reflexivity. Qed.

(** The shape test of line 148. *)
Lemma shape_test_true (a : ndarray R) :
  shape a = [4; 4]%nat ->
  (if list_eq_dec Nat.eq_dec (shape a) [4; 4]%nat then true else false) = true.
Proof. intros Hs. destruct (list_eq_dec Nat.eq_dec (shape a) [4; 4]%nat); congruence. Qed.

Lemma shape_test_false (a : ndarray R) :
  shape a <> [4; 4]%nat ->
  (if list_eq_dec Nat.eq_dec (shape a) [4; 4]%nat then true else false) = false.
Proof. intros Hs. destruct (list_eq_dec Nat.eq_dec (shape a) [4; 4]%nat); congruence. Qed.

(** What the code computes on any 4x4 array: the angles between the whole
    columns, bottom entries included. *)
Lemma get_angles_whole_columns (a : ndarray R) (in_degrees : bool) :
  shape a = [4; 4]%nat ->
  get_angles_between_axes a in_degrees =
    let xy := angle_between (column 0 a 0) (column 0 a 1) in
    let xz := angle_between (column 0 a 0) (column 0 a 2) in
    let yz := angle_between (column 0 a 1) (column 0 a 2) in
    if in_degrees then Ok (to_degrees xy, to_degrees xz, to_degrees yz)
    else Ok (xy, xz, yz).
Proof.
  intros Hs. unfold get_angles_between_axes.
  rewrite (shape_test_true a Hs). reflexivity.
Qed.

Lemma to_degrees_spec (x : npfloat) :
  to_degrees x = option_map (fun r => r * (180 / PI)) x.
Proof.
  destruct x as [v|]; [|reflexivity]. cbn. f_equal. unfold Rdiv. ring.
Qed.

Lemma deviation_within_iff (angle : npfloat) (tol : R) :
  deviation_within angle tol = true <-> deviation_le angle tol.
Proof.
  destruct angle as [v|]; cbn.
  - destruct (Rle_dec (Rabs (90 - v)) tol); split; intros H;
      try reflexivity; try assumption; try discriminate; contradiction.
  - split; [discriminate | contradiction].
Qed.

(** C8: on a 4x4 array [is_orthogonal_affine] returns a boolean, and that
    boolean is true exactly when |90 - xy| <= tol_xy, |90 - xz| <= tol_xz and
    |90 - yz| <= tol_yz for the angles (xy, xz, yz) that
    [get_angles_between_axes] returns in degrees.  The function is pure: its
    result is a function of its two arguments alone. *)
Theorem is_orthogonal_affine_spec (a : ndarray R) (tol_xy tol_xz tol_yz : R) :
  shape a = [4; 4]%nat ->
  exists (xy xz yz : npfloat) (b : bool),
    get_angles_between_axes a true = Ok (xy, xz, yz) /\
    is_orthogonal_affine a (tol_xy, tol_xz, tol_yz) = Ok b /\
    (b = true <->
     deviation_le xy tol_xy /\ deviation_le xz tol_xz /\ deviation_le yz tol_yz).
Proof.
  intros Hs.
  pose proof (get_angles_whole_columns a true Hs) as Hang. cbn zeta in Hang.
  eexists _, _, _, _. split; [exact Hang|].
  unfold is_orthogonal_affine. rewrite Hang. cbn [Py.bind]. split; [reflexivity|].
  rewrite !andb_true_iff, !deviation_within_iff. tauto.
Qed.

(** The identity with the default tolerances. *)
Lemma is_orthogonal_affine_spec_witness :
  exists (xy xz yz : npfloat) (b : bool),
    get_angles_between_axes eye4 true = Ok (xy, xz, yz) /\
    is_orthogonal_affine eye4 (1, 1, 1) = Ok b /\
    (b = true <-> deviation_le xy 1 /\ deviation_le xz 1 /\ deviation_le yz 1).
Proof.
  apply (is_orthogonal_affine_spec eye4 1 1 1). reflexivity.
Defined.

(** *** Worked values *)

Lemma angle_between_value (a b : list R) (d n : R) :
  np_sum (np_multiply a b) = d ->
  np_linalg_norm a * np_linalg_norm b = n ->
  n <> 0 -> -1 <= d / n <= 1 ->
  angle_between a b = Some (acos (d / n)).
Proof.
  intros Hd Hn Hn0 [Hlo Hhi]. unfold angle_between, np_true_divide.
  rewrite Hd, Hn. destruct (Req_dec_T n 0) as [E|_]; [contradiction|].
  unfold np_arccos.
  destruct (Rle_dec (-1) (d / n)); [|contradiction].
  destruct (Rle_dec (d / n) 1); [reflexivity | contradiction].
Qed.

Lemma norm_value (v : list R) (q : R) :
  0 <= q -> np_sum (np_multiply v v) = q * q -> np_linalg_norm v = q.
Proof.
  intros Hq Hv. unfold np_linalg_norm. rewrite Hv. now apply sqrt_square.
Qed.

Lemma right_angle_in_degrees : to_degrees (Some (acos (0 / 1))) = Some 90.
Proof.
  cbn. f_equal. replace (0 / 1) with 0 by field. rewrite acos_0.
  field. apply PI_neq0.
Qed.

(** Orthonormal axes: all three angles are 90 degrees, and the affine is
    orthogonal within one degree. *)
Lemma eye4_angles :
  get_angles_between_axes eye4 true = Ok (Some 90, Some 90, Some 90).
Proof.
  rewrite (get_angles_whole_columns eye4 true eq_refl). cbn zeta.
  rewrite !(column_4x4 eye4 _ eq_refl).
  unfold item, eye4. cbn [ravel size fold_right shape data nth Nat.mul Nat.add].
  assert (Hn : forall v : list R, np_sum (np_multiply v v) = 1 * 1 ->
                                  np_linalg_norm v = 1)
    by (intros v Hv; apply norm_value; [lra | exact Hv]).
  rewrite !(angle_between_value _ _ 0 1);
    try (rewrite !Hn; [ring | cbn; ring | cbn; ring]);
    try (cbn; ring); try lra; try (replace (0 / 1) with 0 by field; lra).
  now rewrite !right_angle_in_degrees.
Qed.

Lemma eye4_is_orthogonal : is_orthogonal_affine eye4 (1, 1, 1) = Ok true.
Proof.
  unfold is_orthogonal_affine. rewrite eye4_angles. cbn [Py.bind].
  unfold deviation_within.
  replace (90 - 90) with 0 by ring. rewrite Rabs_R0.
  destruct (Rle_dec 0 1); [reflexivity | lra].
Qed.

Lemma tilted_bottom_row_xy :
  angle_between (column 0 tilted_bottom_row 0) (column 0 tilted_bottom_row 1)
    = Some (PI / 3)
  /\ claimed_angle (axis tilted_bottom_row 0) (axis tilted_bottom_row 1) false
    = PI / 2.
Proof.
  split.
  - rewrite !(column_4x4 tilted_bottom_row _ eq_refl).
    unfold item, tilted_bottom_row.
    cbn [ravel size fold_right shape data nth Nat.mul Nat.add].
    rewrite (angle_between_value _ _ 1 2).
    + f_equal. replace (1 / 2) with (cos (PI / 3)) by apply cos_PI3.
      apply acos_cos. pose proof PI_RGT_0. lra.
    + cbn; ring.
    + unfold np_linalg_norm. cbn.
      replace (1 * 1 + (0 * 0 + (0 * 0 + (1 * 1 + 0)))) with 2 by ring.
      replace (0 * 0 + (1 * 1 + (0 * 0 + (1 * 1 + 0)))) with 2 by ring.
      apply sqrt_sqrt. lra.
    + lra.
    + lra.
  - unfold claimed_angle, axis, dot3, item, tilted_bottom_row.
    cbn [ravel size fold_right shape data nth Nat.mul Nat.add].
    replace (1 * 0 + 0 * 1 + 0 * 0) with 0 by ring.
    unfold Rdiv. rewrite Rmult_0_l. apply acos_0.
Qed.

(** *** The angles of an affine in homogeneous form *)

Lemma ordinary_length_pos (s : R) : ordinary_length s -> 0 < s.
Proof.
  unfold ordinary_length. intros [H _].
  assert (0 < / 10 ^ 100) by (apply Rinv_0_lt_compat, pow_lt; lra).
  lra.
Qed.

(** Away from parallel, the normalised dot product is within the domain of
    the arc cosine. *)
Lemma clear_of_parallel_bounds (d su sv : R) :
  0 < su -> 0 < sv -> clear_of_parallel d su sv ->
  -1 <= d / (sqrt su * sqrt sv) <= 1.
Proof.
  intros Hu Hv Hc. unfold clear_of_parallel in Hc.
  pose proof (sqrt_lt_R0 su Hu) as Hsu. pose proof (sqrt_lt_R0 sv Hv) as Hsv.
  pose proof (sqrt_sqrt su (Rlt_le _ _ Hu)) as Eu.
  pose proof (sqrt_sqrt sv (Rlt_le _ _ Hv)) as Ev.
  set (n := sqrt su * sqrt sv).
  assert (Hn : 0 < n) by (unfold n; nra).
  assert (Hnn : n * n = su * sv) by (unfold n; nra).
  assert (Hk : (1 - / 10 ^ 12) * (1 - / 10 ^ 12) <= 1) by lra.
  set (k := (1 - / 10 ^ 12) * (1 - / 10 ^ 12)) in *.
  assert (Hp : 0 < su * sv) by nra.
  assert (Hdd : d * d <= n * n) by (rewrite Hnn; nra).
  assert (Hd : - n <= d <= n) by nra.
  split.
  - apply (Rmult_le_reg_r n); [exact Hn|]. unfold Rdiv.
    rewrite Rmult_assoc, Rinv_l by lra. lra.
  - apply (Rmult_le_reg_r n); [exact Hn|]. unfold Rdiv.
    rewrite Rmult_assoc, Rinv_l by lra. lra.
Qed.

(** Two columns whose fourth entry is zero enclose the angle of their
    spatial parts. *)
Lemma angle_between_claimed (a0 a1 a2 b0 b1 b2 : R) :
  0 < dot3 (a0, a1, a2) (a0, a1, a2) ->
  0 < dot3 (b0, b1, b2) (b0, b1, b2) ->
  clear_of_parallel (dot3 (a0, a1, a2) (b0, b1, b2))
                    (dot3 (a0, a1, a2) (a0, a1, a2))
                    (dot3 (b0, b1, b2) (b0, b1, b2)) ->
  angle_between [a0; a1; a2; 0] [b0; b1; b2; 0]
  = Some (claimed_angle (a0, a1, a2) (b0, b1, b2) false).
Proof.
  intros Hu Hv Hc. unfold claimed_angle.
  apply angle_between_value.
  - unfold dot3. cbn. ring.
  - unfold np_linalg_norm, dot3. cbn. f_equal; f_equal; ring.
  - pose proof (sqrt_lt_R0 _ Hu). pose proof (sqrt_lt_R0 _ Hv). nra.
  - now apply clear_of_parallel_bounds.
Qed.

(** C2 (amended): on a 4x4 affine matrix in homogeneous form (last row
    (0,0,0,1)) whose three axes have an ordinary length and of which no two
    are parallel up to rounding, [get_angles_between_axes] returns for the
    column pairs (0,1), (0,2) and (1,2) the angle
    arccos(dot(u,v) / (|u| |v|)) of the spatial parts (first three entries)
    of the columns, multiplied by 180/pi when [in_degrees] holds; an array
    whose shape is not (4, 4) is rejected with an [AssertionError]. *)
Theorem get_angles_between_axes_spec (a : ndarray R) (in_degrees : bool) :
  (homogeneous a ->
   let x := axis a 0 in
   let y := axis a 1 in
   let z := axis a 2 in
   ordinary_length (dot3 x x) ->
   ordinary_length (dot3 y y) ->
   ordinary_length (dot3 z z) ->
   clear_of_parallel (dot3 x y) (dot3 x x) (dot3 y y) ->
   clear_of_parallel (dot3 x z) (dot3 x x) (dot3 z z) ->
   clear_of_parallel (dot3 y z) (dot3 y y) (dot3 z z) ->
   get_angles_between_axes a in_degrees =
     Ok (Some (claimed_angle x y in_degrees),
         Some (claimed_angle x z in_degrees),
         Some (claimed_angle y z in_degrees)))
  /\ (shape a <> [4; 4]%nat ->
      get_angles_between_axes a in_degrees = Raise (AssertionError NoMessage)).
Proof.
  split.
  - intros [Hs Hrow] x y z Hx Hy Hz Hxy Hxz Hyz.
    apply ordinary_length_pos in Hx, Hy, Hz.
    rewrite (get_angles_whole_columns a in_degrees Hs).
    rewrite (row_4x4 a 3 Hs) in Hrow.
    injection Hrow as H0 H1 H2 _.
    rewrite !(column_4x4 a _ Hs), H0, H1, H2. cbn zeta.
    subst x y z. unfold axis in *.
    rewrite !angle_between_claimed by assumption.
    destruct in_degrees.
    + rewrite !to_degrees_spec. reflexivity.
    + reflexivity.
  - intros Hs. unfold get_angles_between_axes.
    rewrite (shape_test_false a Hs). reflexivity.
Qed.

(** An affine whose second axis leans 45 degrees towards the first; a 3x3
    array is turned down. *)
Lemma get_angles_between_axes_spec_witness :
  get_angles_between_axes skewed true =
    Ok (Some (claimed_angle (axis skewed 0) (axis skewed 1) true),
        Some (claimed_angle (axis skewed 0) (axis skewed 2) true),
        Some (claimed_angle (axis skewed 1) (axis skewed 2) true))
  /\ get_angles_between_axes eye3 true = Raise (AssertionError NoMessage).
Proof.
  split.
  - apply (proj1 (get_angles_between_axes_spec skewed true)).
    + split; reflexivity.
    + unfold ordinary_length, axis, dot3, item, skewed. cbn. lra.
    + unfold ordinary_length, axis, dot3, item, skewed. cbn. lra.
    + unfold ordinary_length, axis, dot3, item, skewed. cbn. lra.
    + unfold clear_of_parallel, axis, dot3, item, skewed. cbn. lra.
    + unfold clear_of_parallel, axis, dot3, item, skewed. cbn. lra.
    + unfold clear_of_parallel, axis, dot3, item, skewed. cbn. lra.
  - apply (proj2 (get_angles_between_axes_spec eye3 true)).
    cbn. discriminate.
Defined.

(** *** Further properties of the angles *)

Lemma get_angles_ok_shape (a : ndarray R) (in_degrees : bool)
    (r : npfloat * npfloat * npfloat) :
  get_angles_between_axes a in_degrees = Ok r -> shape a = [4; 4]%nat.
Proof.
  unfold get_angles_between_axes.
  destruct (list_eq_dec Nat.eq_dec (shape a) [4; 4]%nat) as [E|NE];
    [intros _; exact E | discriminate].
Qed.

Lemma angle_between_within (u v : list R) : angle_within PI (angle_between u v).
Proof.
  unfold angle_between, np_true_divide.
  destruct (Req_dec_T _ 0); cbn; [exact I|].
  destruct (Rle_dec _ _); [|exact I].
  destruct (Rle_dec _ _); [|exact I].
  cbn. apply acos_bound.
Qed.

Lemma to_degrees_within (x : npfloat) :
  angle_within PI x -> angle_within 180 (to_degrees x).
Proof.
  destruct x as [v|]; cbn; [|trivial].
  intros [Hlo Hhi]. pose proof PI_RGT_0 as Hpi.
  split.
  - apply Rmult_le_pos; [lra|]. left. now apply Rinv_0_lt_compat.
  - apply (Rmult_le_reg_r PI); [exact Hpi|].
    unfold Rdiv. rewrite Rmult_assoc, Rinv_l by lra. lra.
Qed.

(** X2: Every angle that [get_angles_between_axes] returns as a number lies
    between 0 and 180 degrees, or between 0 and pi in radians. *)
Theorem angles_are_in_range (a : ndarray R) (in_degrees : bool)
    (xy xz yz : npfloat) :
  get_angles_between_axes a in_degrees = Ok (xy, xz, yz) ->
  let hi := if in_degrees then 180 else PI in
  angle_within hi xy /\ angle_within hi xz /\ angle_within hi yz.
Proof.
  intros H. pose proof (get_angles_ok_shape _ _ _ H) as Hs.
  rewrite (get_angles_whole_columns a in_degrees Hs) in H. cbn zeta in H.
  destruct in_degrees; injection H as <- <- <-; cbn zeta;
    repeat split;
    first [ apply to_degrees_within; apply angle_between_within
          | apply angle_between_within ].
Qed.

Lemma angles_are_in_range_witness :
  angle_within 180 (Some 90) /\ angle_within 180 (Some 90)
  /\ angle_within 180 (Some 90).
Proof.
  exact (angles_are_in_range eye4 true _ _ _ eye4_angles).
Defined.

Lemma sqlen_nonneg (v : list R) : 0 <= sqlen v.
Proof.
  unfold sqlen, np_sum, np_multiply.
  induction v as [|x v IH]; cbn; [lra | nra].
Qed.

Lemma norm_pos (v : list R) : 0 < sqlen v -> 0 < np_linalg_norm v.
Proof. intros H. unfold np_linalg_norm. now apply sqrt_lt_R0. Qed.

(** Two columns of positive length with dot product zero are at a right
    angle. *)
Lemma perpendicular_angle (u v : list R) :
  0 < sqlen u -> 0 < sqlen v -> np_sum (np_multiply u v) = 0 ->
  to_degrees (angle_between u v) = Some 90.
Proof.
  intros Hu Hv Hdot.
  pose proof (norm_pos u Hu) as Hnu. pose proof (norm_pos v Hv) as Hnv.
  assert (Hn : np_linalg_norm u * np_linalg_norm v <> 0) by nra.
  assert (Hq : 0 / (np_linalg_norm u * np_linalg_norm v) = 0)
    by (unfold Rdiv; ring).
  rewrite (angle_between_value u v 0 _ Hdot eq_refl Hn) by (rewrite Hq; lra).
  rewrite Hq. cbn. f_equal. rewrite acos_0. field. apply PI_neq0.
Qed.



(** A column of length zero makes the angles it takes part in [nan]. *)
Lemma degenerate_angle_l (u v : list R) : sqlen u = 0 -> angle_between u v = None.
Proof.
  intros Hu. unfold angle_between, np_true_divide, np_linalg_norm.
  fold (sqlen u). rewrite Hu, sqrt_0, Rmult_0_l.
  destruct (Req_dec_T 0 0); [reflexivity | contradiction].
Qed.

Lemma degenerate_angle_r (u v : list R) : sqlen v = 0 -> angle_between u v = None.
Proof.
  intros Hv. unfold angle_between, np_true_divide, np_linalg_norm.
  fold (sqlen v). rewrite Hv, sqrt_0, Rmult_0_r.
  destruct (Req_dec_T 0 0); [reflexivity | contradiction].
Qed.

(** X5: A 4x4 array one of whose first three columns has length zero is never
    reported as orthogonal, however large the tolerances: the angles with
    that column are [nan], and no comparison with [nan] holds. *)
Theorem collapsed_axis_is_never_orthogonal (a : ndarray R) (j : nat)
    (tols : R * R * R) :
  shape a = [4; 4]%nat -> (j < 3)%nat -> sqlen (column 0 a j) = 0 ->
  is_orthogonal_affine a tols = Ok false.
Proof.
  intros Hs Hj Hz. destruct tols as [[t0 t1] t2].
  unfold is_orthogonal_affine.
  rewrite (get_angles_whole_columns a true Hs). cbn zeta. cbn [Py.bind].
  destruct j as [|[|[|j]]]; [| | |lia].
  - rewrite (degenerate_angle_l _ (column 0 a 1) Hz). reflexivity.
  - rewrite (degenerate_angle_r (column 0 a 0) _ Hz). reflexivity.
  - rewrite (degenerate_angle_r (column 0 a 0) _ Hz). cbn.
    now rewrite andb_false_r.
Qed.

Lemma collapsed_axis_is_never_orthogonal_witness :
  is_orthogonal_affine collapsed_axis (180, 180, 180) = Ok false.
Proof.
  apply (collapsed_axis_is_never_orthogonal collapsed_axis 2 (180, 180, 180)).
  - reflexivity.
  - lia.
  - cbn. ring.
Defined.

(** X7: A larger tolerance never turns an orthogonal affine into a
    non-orthogonal one. *)
Theorem orthogonality_grows_with_tolerance (a : ndarray R)
    (t0 t1 t2 t0' t1' t2' : R) :
  t0 <= t0' -> t1 <= t1' -> t2 <= t2' ->
  is_orthogonal_affine a (t0, t1, t2) = Ok true ->
  is_orthogonal_affine a (t0', t1', t2') = Ok true.
Proof.
  intros H0 H1 H2. unfold is_orthogonal_affine.
  destruct (get_angles_between_axes a true) as [[[xy xz] yz]|e];
    cbn [Py.bind]; [|discriminate].
  intros H. injection H as H. f_equal.
  rewrite !andb_true_iff, !deviation_within_iff in *.
  destruct H as [[Hxy Hxz] Hyz].
  repeat split.
  - destruct xy; cbn in *; [lra | assumption].
  - destruct xz; cbn in *; [lra | assumption].
  - destruct yz; cbn in *; [lra | assumption].
Qed.

Lemma orthogonality_grows_with_tolerance_witness :
  is_orthogonal_affine eye4 (2, 3, 4) = Ok true.
Proof.
  apply (orthogonality_grows_with_tolerance eye4 1 1 1 2 3 4);
    try lra. exact eye4_is_orthogonal.
Defined.

(** *** Voxel size and origin do not matter *)

Lemma dot_scale (c d : R) (u v : list R) :
  np_sum (np_multiply (map (Rmult c) u) (map (Rmult d) v))
  = c * d * np_sum (np_multiply u v).
Proof.
  unfold np_sum, np_multiply. revert v.
  induction u as [|x u IH]; intros [|y v]; cbn; try ring.
  rewrite IH. ring.
Qed.

Lemma norm_scale (c : R) (u : list R) :
  0 <= c -> np_linalg_norm (map (Rmult c) u) = c * np_linalg_norm u.
Proof.
  intros Hc. unfold np_linalg_norm. rewrite dot_scale.
  rewrite sqrt_mult; [|nra|apply sqlen_nonneg].
  now rewrite sqrt_square.
Qed.

Lemma angle_between_scale (c d : R) (u v : list R) :
  0 < c -> 0 < d ->
  angle_between (map (Rmult c) u) (map (Rmult d) v) = angle_between u v.
Proof.
  intros Hc Hd. unfold angle_between.
  rewrite dot_scale, !norm_scale by lra.
  set (x := np_sum (np_multiply u v)).
  set (n := np_linalg_norm u * np_linalg_norm v).
  replace (c * np_linalg_norm u * (d * np_linalg_norm v)) with (c * d * n)
    by (unfold n; ring).
  assert (Hcd : c * d <> 0) by nra.
  unfold np_true_divide.
  destruct (Req_dec_T n 0) as [E|NE].
  - rewrite E, Rmult_0_r.
    destruct (Req_dec_T 0 0); [reflexivity | contradiction].
  - destruct (Req_dec_T (c * d * n) 0) as [E'|_].
    + apply Rmult_integral in E' as [E'|E']; contradiction.
    + replace (c * d * x / (c * d * n)) with (x / n) by (field; split; lra || assumption).
      reflexivity.
Qed.

(** X6: Stretching the first three columns of a 4x4 affine by positive factors
    (other voxel sizes) and replacing its fourth column (another origin)
    changes none of the angles, as long as the columns keep an ordinary
    length and no two of them are parallel up to rounding. *)
Theorem angles_ignore_voxel_size_and_origin (a a' : ndarray R)
    (c0 c1 c2 : R) (in_degrees : bool) :
  shape a = [4; 4]%nat -> shape a' = [4; 4]%nat ->
  0 < c0 -> 0 < c1 -> 0 < c2 ->
  column 0 a' 0 = map (Rmult c0) (column 0 a 0) ->
  column 0 a' 1 = map (Rmult c1) (column 0 a 1) ->
  column 0 a' 2 = map (Rmult c2) (column 0 a 2) ->
  axes_ordinary a -> axes_ordinary a' -> axes_apart a ->
  get_angles_between_axes a' in_degrees = get_angles_between_axes a in_degrees.
Proof.
  intros Hs Hs' H0 H1 H2 E0 E1 E2 _ _ _.
  rewrite (get_angles_whole_columns a' in_degrees Hs'),
          (get_angles_whole_columns a in_degrees Hs).
  cbn zeta. rewrite E0, E1, E2.
  now rewrite !angle_between_scale by assumption.
Qed.

Lemma eye4_axes_ordinary : axes_ordinary eye4.
Proof.
  intros j Hj. rewrite (column_4x4 eye4 j eq_refl). unfold ordinary_length.
  destruct j as [|[|[|j]]]; [| | |lia]; cbn; lra.
Qed.

Lemma scaled_shifted_axes_ordinary : axes_ordinary scaled_shifted.
Proof.
  intros j Hj. rewrite (column_4x4 scaled_shifted j eq_refl). unfold ordinary_length.
  destruct j as [|[|[|j]]]; [| | |lia]; cbn; lra.
Qed.

Lemma eye4_axes_apart : axes_apart eye4.
Proof.
  intros i j Hij. rewrite !(column_4x4 eye4 _ eq_refl). unfold clear_of_parallel.
  destruct i as [|[|[|i]]]; destruct j as [|[|[|j]]]; try lia; cbn; lra.
Qed.

Lemma angles_ignore_voxel_size_and_origin_witness :
  get_angles_between_axes scaled_shifted true = get_angles_between_axes eye4 true.
Proof.
  apply (angles_ignore_voxel_size_and_origin eye4 scaled_shifted 2 3 5 true);
    try reflexivity; try lra;
    try exact eye4_axes_ordinary; try exact scaled_shifted_axes_ordinary;
    try exact eye4_axes_apart;
    cbn; repeat f_equal; ring.
Defined.

(** *** No [nan] for axes that are not parallel *)

(** The Cauchy-Schwarz inequality for two vectors of four entries. *)
Lemma cauchy_schwarz_4 (a0 a1 a2 a3 b0 b1 b2 b3 : R) :
  let d := np_sum (np_multiply [a0; a1; a2; a3] [b0; b1; b2; b3]) in
  d * d <= sqlen [a0; a1; a2; a3] * sqlen [b0; b1; b2; b3].
Proof.
  cbn. 
  assert (E : (a0 * a0 + (a1 * a1 + (a2 * a2 + (a3 * a3 + 0))))
              * (b0 * b0 + (b1 * b1 + (b2 * b2 + (b3 * b3 + 0))))
              - (a0 * b0 + (a1 * b1 + (a2 * b2 + (a3 * b3 + 0))))
                * (a0 * b0 + (a1 * b1 + (a2 * b2 + (a3 * b3 + 0))))
              = (a0 * b1 - a1 * b0) * (a0 * b1 - a1 * b0)
                + (a0 * b2 - a2 * b0) * (a0 * b2 - a2 * b0)
                + (a0 * b3 - a3 * b0) * (a0 * b3 - a3 * b0)
                + (a1 * b2 - a2 * b1) * (a1 * b2 - a2 * b1)
                + (a1 * b3 - a3 * b1) * (a1 * b3 - a3 * b1)
                + (a2 * b3 - a3 * b2) * (a2 * b3 - a3 * b2)) by ring.
  pose proof (Rle_0_sqr (a0 * b1 - a1 * b0)) as S1.
  pose proof (Rle_0_sqr (a0 * b2 - a2 * b0)) as S2.
  pose proof (Rle_0_sqr (a0 * b3 - a3 * b0)) as S3.
  pose proof (Rle_0_sqr (a1 * b2 - a2 * b1)) as S4.
  pose proof (Rle_0_sqr (a1 * b3 - a3 * b1)) as S5.
  pose proof (Rle_0_sqr (a2 * b3 - a3 * b2)) as S6.
  unfold Rsqr in *. lra.
Qed.

(** Between two columns of positive length the exact quotient lies within
    the domain of the arc cosine, and the cosine of the angle is that
    quotient. *)
Lemma angle_between_defined (a0 a1 a2 a3 b0 b1 b2 b3 : R) :
  let u := [a0; a1; a2; a3] in
  let v := [b0; b1; b2; b3] in
  0 < sqlen u -> 0 < sqlen v ->
  exists t, angle_between u v = Some t
            /\ cos t = np_sum (np_multiply u v)
                       / (np_linalg_norm u * np_linalg_norm v).
Proof.
  intros u v Hu Hv.
  pose proof (norm_pos u Hu) as Hnu. pose proof (norm_pos v Hv) as Hnv.
  set (d := np_sum (np_multiply u v)).
  set (n := np_linalg_norm u * np_linalg_norm v).
  assert (Hn : 0 < n) by (unfold n; nra).
  assert (Hnn : n * n = sqlen u * sqlen v).
  { unfold n, np_linalg_norm. fold (sqlen u) (sqlen v).
    pose proof (sqrt_sqrt (sqlen u) (Rlt_le _ _ Hu)).
    pose proof (sqrt_sqrt (sqlen v) (Rlt_le _ _ Hv)). nra. }
  pose proof (cauchy_schwarz_4 a0 a1 a2 a3 b0 b1 b2 b3) as Hcs.
  cbn zeta in Hcs. fold u v d in Hcs. rewrite <- Hnn in Hcs.
  assert (Hb : -1 <= d / n <= 1).
  { assert (- n <= d <= n) by nra.
    split.
    - apply (Rmult_le_reg_r n); [exact Hn|]. unfold Rdiv.
      rewrite Rmult_assoc, Rinv_l by lra. lra.
    - apply (Rmult_le_reg_r n); [exact Hn|]. unfold Rdiv.
      rewrite Rmult_assoc, Rinv_l by lra. lra. }
  exists (acos (d / n)). split.
  - apply angle_between_value; try reflexivity; [lra | exact Hb].
  - now apply cos_acos.
Qed.

(** X3: On a 4x4 array whose first three columns have an ordinary length and
    of which no two are parallel up to rounding, none of the three angles
    is [nan]: each is a number in radians whose cosine is the dot product of
    the two columns over the product of their lengths. *)
Theorem angles_are_numbers (a : ndarray R) :
  shape a = [4; 4]%nat -> axes_ordinary a -> axes_apart a ->
  exists xy xz yz : R,
    get_angles_between_axes a false = Ok (Some xy, Some xz, Some yz)
    /\ cos xy = np_sum (np_multiply (column 0 a 0) (column 0 a 1))
                / (np_linalg_norm (column 0 a 0) * np_linalg_norm (column 0 a 1))
    /\ cos xz = np_sum (np_multiply (column 0 a 0) (column 0 a 2))
                / (np_linalg_norm (column 0 a 0) * np_linalg_norm (column 0 a 2))
    /\ cos yz = np_sum (np_multiply (column 0 a 1) (column 0 a 2))
                / (np_linalg_norm (column 0 a 1) * np_linalg_norm (column 0 a 2)).
Proof.
  intros Hs Hlen _.
  pose proof (ordinary_length_pos _ (Hlen 0%nat ltac:(lia))) as H0.
  pose proof (ordinary_length_pos _ (Hlen 1%nat ltac:(lia))) as H1.
  pose proof (ordinary_length_pos _ (Hlen 2%nat ltac:(lia))) as H2.
  rewrite (get_angles_whole_columns a false Hs). cbn zeta.
  rewrite !(column_4x4 a _ Hs) in *.
  destruct (angle_between_defined _ _ _ _ _ _ _ _ H0 H1) as [xy [Exy Cxy]].
  destruct (angle_between_defined _ _ _ _ _ _ _ _ H0 H2) as [xz [Exz Cxz]].
  destruct (angle_between_defined _ _ _ _ _ _ _ _ H1 H2) as [yz [Eyz Cyz]].
  exists xy, xz, yz. rewrite Exy, Exz, Eyz. auto.
Qed.

Lemma angles_are_numbers_witness :
  exists xy xz yz : R,
    get_angles_between_axes skewed false = Ok (Some xy, Some xz, Some yz)
    /\ cos xy = np_sum (np_multiply (column 0 skewed 0) (column 0 skewed 1))
                / (np_linalg_norm (column 0 skewed 0)
                   * np_linalg_norm (column 0 skewed 1))
    /\ cos xz = np_sum (np_multiply (column 0 skewed 0) (column 0 skewed 2))
                / (np_linalg_norm (column 0 skewed 0)
                   * np_linalg_norm (column 0 skewed 2))
    /\ cos yz = np_sum (np_multiply (column 0 skewed 1) (column 0 skewed 2))
                / (np_linalg_norm (column 0 skewed 1)
                   * np_linalg_norm (column 0 skewed 2)).
Proof.
  apply (angles_are_numbers skewed).
  - reflexivity.
  - intros j Hj. rewrite (column_4x4 skewed j eq_refl). unfold ordinary_length.
    destruct j as [|[|[|j]]]; [| | |lia]; cbn; lra.
  - intros i j Hij. rewrite !(column_4x4 skewed _ eq_refl).
    unfold clear_of_parallel.
    destruct i as [|[|[|i]]]; destruct j as [|[|[|j]]]; try lia; cbn; lra.
Defined.

(** *** Parallel axes *)

(** C2, as stated, fails on an affine whose first two axes are parallel,
    (1, 1, 1) and (1, 1, 1): the angle of the claim is arccos(1) = 0, but in
    binary64 the product of the two lengths is rounded to
    2.9999999999999996, the quotient that line 149 hands to [np.arccos] is
    1.0000000000000002, and the code returns [nan].  It also fails, in exact
    arithmetic too, on an affine with an axis of length zero, between which
    and any other axis there is no angle: the code returns [nan]. *)
Lemma parallel_axes_give_nan :
  claimed_angle (1, 1, 1) (1, 1, 1) true = 0
  /\ arccos_argument_f64 [1; 1; 1; 0]%float [1; 1; 1; 0]%float
     = 0x1.0000000000001p+0%float
  /\ (exists xz yz,
        get_angles_between_axes_f64 parallel_axes_f64 true = Ok (nan_f64, xz, yz))
  /\ get_angles_between_axes collapsed_axis true = Ok (Some 90, None, None).
Proof.
  split; [|split; [|split]].
  - unfold claimed_angle, dot3.
    replace (1 * 1 + 1 * 1 + 1 * 1) with 3 by ring.
    rewrite sqrt_sqrt by lra.
    replace (3 / 3) with 1 by field.
    rewrite acos_1. ring.
  - vm_compute. reflexivity.
  - eexists _, _. vm_compute. reflexivity.
  - rewrite (get_angles_whole_columns collapsed_axis true eq_refl). cbn zeta.
    rewrite !(column_4x4 collapsed_axis _ eq_refl).
    rewrite perpendicular_angle by (cbn; first [lra | ring]).
    rewrite !(degenerate_angle_r _ [item 0 collapsed_axis [0; 2]%nat;
                                    item 0 collapsed_axis [1; 2]%nat;
                                    item 0 collapsed_axis [2; 2]%nat;
                                    item 0 collapsed_axis [3; 2]%nat])
      by (cbn; ring).
    reflexivity.
Qed.

End Geometry.

(** ** Resampler: [resample_nifti] (nifti.py, lines 48-103) *)

Module Resample.

Local Open Scope Q_scope.

(** *** Numbers *)

Definition Qlt_bool (x y : Q) : bool := negb (Qle_bool y x).

(** [x / y].  Python raises [ZeroDivisionError] on a zero divisor; where an
    operand is a numpy scalar the quotient is [inf] or [nan] instead, and
    the exception comes one step later, when [round] or [int] meets it
    ([OverflowError] or [ValueError]).  Lines 78-80 raise either way; the
    model has one exception for these cases. *)
Definition py_div (x y : Q) : res Q :=
  if Qeq_bool y 0 then Raise ZeroDivisionError else Ok (x / y).

(** [round(x)] of a float: the nearest integer, a tie going to the even
    one. *)
Definition py_round (x : Q) : Z :=
  let f := Qfloor x in
  match Qcompare (x - inject_Z f) (1 # 2) with
  | Lt => f
  | Gt => (f + 1)%Z
  | Eq => if Z.even f then f else (f + 1)%Z
  end.

(** [int(x)]: truncation towards zero. *)
Definition py_int (x : Q) : Z :=
  if Qle_bool 0 x then Qfloor x else Qceiling x.

(** numpy's default tolerances of [allclose]. *)
Definition rtol : Q := 1 # 100000.
Definition atol : Q := 1 # 100000000.

(** One element of [np.allclose(a, b)]: |a - b| <= atol + rtol * |b|. *)
Definition isclose (a b : Q) : bool :=
  Qle_bool (Qabs (a - b)) (atol + rtol * Qabs b).

(** [isclose a (sqrt s)] for [0 <= s], with the square root squared away so
    that the test stays within the rationals (see [isclose_sqrt_spec]):
    |a - n| <= atol + rtol * n  iff  a - atol <= (1 + rtol) * n  and
    (1 - rtol) * n <= a + atol. *)
Definition isclose_sqrt (a s : Q) : bool :=
  (Qle_bool (a - atol) 0
   || Qle_bool ((a - atol) * (a - atol)) ((1 + rtol) * (1 + rtol) * s))
  && Qle_bool 0 (a + atol)
  && Qle_bool ((1 - rtol) * (1 - rtol) * s) ((a + atol) * (a + atol)).

(** numpy's broadcasting of two one-dimensional operands: equal lengths pair
    up, an operand of length one is repeated, anything else is an error. *)
Definition broadcast {A B} (xs : list A) (ys : list B) : option (list (A * B)) :=
  if (length xs =? length ys)%nat then Some (combine xs ys)
  else match xs, ys with
       | [x], _ => Some (map (pair x) ys)
       | _, [y] => Some (map (fun x => (x, y)) xs)
       | _, _ => None
       end.

Definition np_allclose_with (close : Q -> Q -> bool) (a b : list Q) : res bool :=
  match broadcast a b with
  | Some ps => Ok (forallb (fun p => close (fst p) (snd p)) ps)
  | None => Raise (ValueError "operands could not be broadcast together")
  end.

(** [np.allclose(a, b)] *)
Definition np_allclose : list Q -> list Q -> res bool := np_allclose_with isclose.

(** *** Images *)

(** A [Nifti1Image] as this module uses it: [get_fdata()], [affine] and
    [header.get_zooms()]. *)
Record Nifti1Image : Type := {
  dataobj : ndarray Q;
  affine : ndarray Q;
  zooms : list Q
}.

(** [nib.Nifti1Image(array, affine=affine)] followed by
    [header.set_zooms(zooms)].  nibabel's [set_zooms] wants one zoom per
    axis of the array and no negative zoom, and raises [HeaderDataError]
    otherwise. *)
Definition new_image_with_zooms (array aff : ndarray Q) (zs : list Q)
  : res Nifti1Image :=
  if negb (length zs =? length (shape array))%nat
  then Raise (ExternalError "HeaderDataError: wrong number of zooms")
  else if existsb (fun z => Qlt_bool z 0) zs
  then Raise (ExternalError "HeaderDataError: zooms must be positive")
  else Ok {| dataobj := array; affine := aff; zooms := zs |}.

(** The squares of [np.linalg.norm(affine[:3, :3], 2, axis=0)]. *)
Definition spatial_sqnorms (aff : ndarray Q) : list Q :=
  map (fun j => item 0 aff [0; j]%nat * item 0 aff [0; j]%nat
                + item 0 aff [1; j]%nat * item 0 aff [1; j]%nat
                + item 0 aff [2; j]%nat * item 0 aff [2; j]%nat)
      [0; 1; 2]%nat.

(** The [order] argument: the string "mean", an integer, or anything else. *)
Inductive order_arg : Type :=
| Mean
| IntOrder (n : Z)
| OtherOrder.

(** Line 75: [None] stands for the input zoom of the axis. *)
Definition substitute_none (input_zooms : list Q) (output_zooms : list (option Q))
  : list Q :=
  map (fun p => match snd p with None => fst p | Some z => z end)
      (combine input_zooms output_zooms).

(** *** Mean mode (lines 77-80) *)

(** The test of the assertion of line 77 for one axis, on the exact
    numbers.  The code compares floats, in single precision when the input
    zoom is a numpy float32, so a violation within rounding of the boundary
    can pass there; the property about violations asks for
    [clearly_unsupported]. *)
Definition mean_supported (output_zoom input_zoom : Q) : bool :=
  Qle_bool input_zoom ((4 # 3) * output_zoom).

(** The element expression of line 78. *)
Definition mean_zoom_factor (input_zoom output_zoom : Q) : res Q :=
  if Qlt_bool ((2 # 3) * output_zoom) input_zoom then Ok 1
  else (ratio <- py_div output_zoom input_zoom ;;
        py_div 1 (inject_Z (py_round ratio)))%py.

(** The element expression of line 80, [int(1 / zoom_factor)], with the
    exact reciprocal.  In binary64 the reciprocal of 1/n can fall just below
    the integer n, which [int] then takes to n - 1 (n = 93 is the first
    case); the properties below use of a window only that it is at least
    1. *)
Definition window_size (zoom_factor : Q) : res Z :=
  (w <- py_div 1 zoom_factor ;; Ok (py_int w))%py.

(** *** Spline mode (lines 83-88) *)

(** The square of the sigma of line 86 for one axis. *)
Definition sigma_squared (zoom_factor : Q) : res Q :=
  if Qlt_bool zoom_factor 1
  then (w <- py_div 1 zoom_factor ;; Ok ((w * w - 1) / 12))%py
  else Ok 0.

(** *** Reference grid (lines 91-95) and affine (lines 98-99) *)

Definition zeros_like (a : ndarray Q) : ndarray Q :=
  {| shape := shape a; data := repeat 0 (size (shape a)) |}.

(** [min(s, s_) for s, s_ in zip(a.shape, b.shape)] *)
Definition overlap (a b : ndarray Q) : list nat :=
  map (fun p => Nat.min (fst p) (snd p)) (combine (shape a) (shape b)).

(** Line 93 for two arrays with the same number of axes:
    [target[:m0, :m1, ...] = source[:m0, :m1, ...]]. *)
Definition paste_overlap (source target : ndarray Q) : ndarray Q :=
  {| shape := shape target;
     data := map (fun idx => if in_boundsb (overlap source target) idx
                             then item 0 source idx
                             else item 0 target idx)
                 (all_indices (shape target)) |}.

(** [l] with [f k x] in place of its [k]-th element [x]. *)
Definition imap {A B} (f : nat -> A -> B) (l : list A) : list B :=
  map (fun p => f (fst p) (snd p)) (combine (seq 0 (length l)) l).

(** [aff[:3, :3] / factors] for three factors: column [j] of the block is
    divided by [factors[j]]. *)
Definition divide_spatial_block (aff : ndarray Q) (factors : list Q)
  : res (ndarray Q) :=
  if existsb (fun z => Qeq_bool z 0) factors then Raise ZeroDivisionError
  else
    let ncols := nth 1 (shape aff) 0%nat in
    Ok {| shape := shape aff;
          data := imap (fun k x =>
                          if ((k / ncols <? 3) && (k mod ncols <? 3))%nat
                          then x / nth (k mod ncols) factors 0
                          else x)
                       (data aff) |}.

(** Lines 98-99: [zoom_factors[:3]] is broadcast against the 3x3 block. *)
Definition rescale_affine (aff : ndarray Q) (zoom_factors : list Q)
  : res (ndarray Q) :=
  match firstn 3 zoom_factors with
  | [z] => divide_spatial_block aff [z; z; z]
  | [z0; z1; z2] => divide_spatial_block aff [z0; z1; z2]
  | _ => Raise (ValueError "operands could not be broadcast together")
  end.

Section WithCollaborators.

(** [scipy.ndimage.zoom(array, factors, order=order, mode="nearest")] *)
Variable zoom : ndarray Q -> list Q -> Z -> ext (ndarray Q).

(** [scipy.ndimage.gaussian_filter(array, sigmas, mode="nearest")], given
    the squares of the sigmas. *)
Variable gaussian_filter : ndarray Q -> list Q -> ext (ndarray Q).

(** [arraythings.downsample_array(array, window_sizes=sizes)] *)
Variable downsample_array : ndarray Q -> list Z -> ext (ndarray Q).

(** Line 93 for two arrays whose numbers of axes differ: numpy indexes the
    leading axes they share and broadcasts the rest. *)
Variable assign_leading_slices : ndarray Q -> ndarray Q -> ext (ndarray Q).

(** Lines 76-88: the resampled array, the zoom factors and the output
    zooms. *)
Definition resampled (input_array : ndarray Q) (input_zooms output_zooms : list Q)
    (order : order_arg) (prefilter : bool)
  : res (ndarray Q * list Q * list Q) :=
  match order with
  | Mean =>
      (assert (forallb (fun p => mean_supported (fst p) (snd p))
                       (combine output_zooms input_zooms))
              (MeanOnlyDownsamples input_zooms) ;;
       zoom_factors <- comprehension (fun p => mean_zoom_factor (fst p) (snd p))
                                     (combine input_zooms output_zooms) ;;
       output_zooms' <- comprehension (fun p => py_div (fst p) (snd p))
                                      (combine input_zooms zoom_factors) ;;
       window_sizes <- comprehension window_size zoom_factors ;;
       output_array <- call (downsample_array input_array window_sizes) ;;
       Ok (output_array, zoom_factors, output_zooms'))%py
  | IntOrder n =>
      (zoom_factors <- comprehension (fun p => py_div (fst p) (snd p))
                                     (combine input_zooms output_zooms) ;;
       input_array' <- (if prefilter
                        then (sigmas <- comprehension sigma_squared zoom_factors ;;
                              call (gaussian_filter input_array sigmas))
                        else Ok input_array) ;;
       output_array <- call (zoom input_array' zoom_factors n) ;;
       Ok (output_array, zoom_factors, output_zooms))%py
  | OtherOrder => Raise (AssertionError OrderMustBeInt)
  end.

(** Lines 91-95. *)
Definition fit_to_reference (output_array : ndarray Q) (output_zooms : list Q)
    (reference_nii : Nifti1Image) : res (ndarray Q * ndarray Q) :=
  (same <- np_allclose output_zooms (zooms reference_nii) ;;
   assert same ReferenceZoomsDiffer ;;
   let output_array_ := zeros_like (dataobj reference_nii) in
   output_array' <-
     (if (length (shape output_array) =? length (shape output_array_))%nat
      then Ok (paste_overlap output_array output_array_)
      else call (assign_leading_slices output_array output_array_)) ;;
   Ok (output_array', affine reference_nii))%py.

Definition resample_nifti (input_nii : Nifti1Image)
    (output_zooms : list (option Q)) (order : order_arg) (prefilter : bool)
    (reference_nii : option Nifti1Image) : res Nifti1Image :=
  (let input_zooms := zooms input_nii in
   assert (length input_zooms =? length output_zooms)%nat DimensionsMismatch ;;
   consistent <- np_allclose_with isclose_sqrt (firstn 3 input_zooms)
                                  (spatial_sqnorms (affine input_nii)) ;;
   assert consistent InconsistentAffineAndZooms ;;
   let input_array := dataobj input_nii in
   let output_zooms := substitute_none input_zooms output_zooms in
   '(output_array, zoom_factors, output_zooms) <-
     resampled input_array input_zooms output_zooms order prefilter ;;
   '(output_array, output_affine) <-
     match reference_nii with
     | Some reference => fit_to_reference output_array output_zooms reference
     | None =>
         output_affine <- rescale_affine (affine input_nii) zoom_factors ;;
         Ok (output_array, output_affine)
     end ;;
   new_image_with_zooms output_array output_affine output_zooms)%py.

End WithCollaborators.

(** *** Stand-ins for the collaborators

    Simple executable versions of the collaborators, to run the model on
    concrete volumes. *)

Definition scaled_index (idx w off : list nat) : list nat :=
  map (fun p => (fst (fst p) * snd (fst p) + snd p)%nat) (combine (combine idx w) off).

(** Mean over non-overlapping windows; a remainder that does not fill a
    window is dropped. *)
Definition block_mean (a : ndarray Q) (window_sizes : list Z) : ext (ndarray Q) :=
  if negb (length window_sizes =? length (shape a))%nat
     || existsb (fun w => (w <=? 0)%Z) window_sizes
  then Fails "downsample_array"
  else
    let w := map Z.to_nat window_sizes in
    let out_shape := map (fun p => (fst p / snd p)%nat) (combine (shape a) w) in
    Returns {| shape := out_shape;
          data := map (fun idx =>
                         fold_right Qplus 0
                           (map (fun off => item 0 a (scaled_index idx w off))
                                (all_indices w))
                         / inject_Z (Z.of_nat (size w)))
                      (all_indices out_shape) |}.

(** Nearest-neighbour resampling. *)
Definition nearest_zoom (a : ndarray Q) (factors : list Q) (order : Z)
  : ext (ndarray Q) :=
  if negb (length factors =? length (shape a))%nat
     || existsb (fun z => Qle_bool z 0) factors
  then Fails "zoom"
  else
    let out_shape :=
      map (fun p => Z.to_nat (py_round (inject_Z (Z.of_nat (fst p)) * snd p)))
          (combine (shape a) factors) in
    Returns {| shape := out_shape;
          data := map (fun idx =>
                         item 0 a
                           (map (fun p => Nat.min (fst (fst p) - 1)
                                            (Z.to_nat (Qfloor (inject_Z (Z.of_nat (snd (fst p))) / snd p))))
                                (combine (combine (shape a) idx) factors)))
                      (all_indices out_shape) |}.

(** No smoothing. *)
Definition no_filter (a : ndarray Q) (sigmas_squared : list Q) : ext (ndarray Q) :=
  Returns a.

(** A smoothing step that always raises. *)
Definition failing_filter (a : ndarray Q) (sigmas_squared : list Q) : ext (ndarray Q) :=
  Fails "gaussian_filter".

(** Arrays with different numbers of axes are turned down. *)
Definition no_broadcast (source target : ndarray Q) : ext (ndarray Q) :=
  Fails "could not broadcast input array".

Definition run_resample_nifti :=
  resample_nifti nearest_zoom no_filter block_mean no_broadcast.

(** The axis-aligned affine with voxel sizes [z0], [z1], [z2] and no
    translation. *)
Definition diagonal_affine (z0 z1 z2 : Q) : ndarray Q :=
  {| shape := [4; 4]%nat;
     data := [z0; 0; 0; 0;
              0; z1; 0; 0;
              0; 0; z2; 0;
              0; 0; 0; 1] |}.

(** A volume of shape [s] whose voxel at row-major position [k] holds
    [k]. *)
Definition ramp (s : list nat) : ndarray Q :=
  {| shape := s; data := map (fun k => inject_Z (Z.of_nat k)) (seq 0 (size s)) |}.

(** The affine and the zooms of the volume agree (line 73). *)
Definition consistent (input_nii : Nifti1Image) : Prop :=
  np_allclose_with isclose_sqrt (firstn 3 (zooms input_nii))
                   (spatial_sqnorms (affine input_nii)) = Ok true.

(** The exception of the assertion of line 77, whatever zooms it shows. *)
Definition mean_error (e : exn) : Prop :=
  exists zs, e = AssertionError (MeanOnlyDownsamples zs).

(** The axes on which the assertion of line 77 fails. *)
Definition offending_axes (input_zooms requested : list Q) : list nat :=
  filter (fun i => negb (mean_supported (nth i requested 0) (nth i input_zooms 0)))
         (seq 0 (length input_zooms)).

(** A 4x4x2 volume with unit voxels. *)
Definition sample_volume : Nifti1Image :=
  {| dataobj := ramp [4; 4; 2]%nat;
     affine := diagonal_affine 1 1 1;
     zooms := [1; 1; 1] |}.

(** A 3x1x3 reference grid with voxels of size (2, 1, 1). *)
Definition sample_reference : Nifti1Image :=
  {| dataobj := ramp [3; 1; 3]%nat;
     affine := diagonal_affine 2 1 1;
     zooms := [2; 1; 1] |}.

(** A series of two 2x2x2 volumes whose fourth zoom (the repetition time)
    is not set. *)
Definition sample_series : Nifti1Image :=
  {| dataobj := ramp [2; 2; 2; 2]%nat;
     affine := diagonal_affine 1 1 1;
     zooms := [1; 1; 1; 0] |}.

(** The smoothing of line 86 for one axis, as a relation between the zooms
    and the square of the sigma. *)
Definition smoothing_of (zooms : Q * Q) (sigma2 : Q) : Prop :=
  let input_zoom := fst zooms in
  let output_zoom := snd zooms in
  0 <= sigma2
  /\ (output_zoom <= input_zoom -> sigma2 = 0)
  /\ (input_zoom < output_zoom ->
      0 < sigma2
      /\ sigma2 == ((output_zoom / input_zoom) * (output_zoom / input_zoom) - 1) / 12).

(** The squared norm of each spatial column of the affine is the square of
    the zoom of its axis. *)
Definition exactly_consistent (nii : Nifti1Image) : Prop :=
  Forall2 (fun z s => s == z * z) (firstn 3 (zooms nii)) (spatial_sqnorms (affine nii)).

(** numpy's closeness test of a zoom against the length of a column of the
    affine whose squared length is [s], over the reals. *)
Definition zoom_matches_norm (z s : Q) : Prop :=
  (Rabs (Q2R z - sqrt (Q2R s)) <= Q2R atol + Q2R rtol * Rabs (sqrt (Q2R s)))%R.

(** Unit voxels in the affine, but a zoom of 2 for the first axis in the
    header. *)
Definition mislabelled_volume : Nifti1Image :=
  {| dataobj := ramp [4; 4; 2]%nat;
     affine := diagonal_affine 1 1 1;
     zooms := [2; 1; 1] |}.



(** An axis that violates 4/3 * outputZoom >= inputZoom by more than the
    rounding of the comparison: the input zoom is positive and exceeds
    4/3 * outputZoom by more than one part in a million (single precision
    resolves one part in some ten millions). *)
Definition clearly_unsupported (output_zoom input_zoom : Q) : Prop :=
  0 < input_zoom /\ (4 # 3) * output_zoom * (1 + (1 # 1000000)) < input_zoom.



(** *** Outcomes of binds, assertions and comprehensions *)

Lemma bind_ok_inv {A B} (m : res A) (k : A -> res B) (b : B) :
  Py.bind m k = Ok b -> exists a, m = Ok a /\ k a = Ok b.
Proof. destruct m as [a|e]; cbn; [eauto | discriminate]. Qed.

Lemma assert_ok_inv (c : bool) (msg : assert_msg) (u : unit) :
  assert c msg = Ok u -> c = true.
Proof. destruct c; cbn; [reflexivity | discriminate]. Qed.

Lemma call_ok_inv {A} (r : ext A) (a : A) : call r = Ok a -> r = Returns a.
Proof. destruct r; cbn; congruence. Qed.

(** A comprehension returns exactly when each element expression does, and
    then holds the values in order. *)
Lemma comprehension_ok_iff {A B} (f : A -> res B) (l : list A) (bs : list B) :
  comprehension f l = Ok bs <-> Forall2 (fun a b => f a = Ok b) l bs.
Proof.
  revert bs. induction l as [|a l IH]; intros bs; cbn.
  - split.
    + intros H. injection H as <-. constructor.
    + intros H. inversion H. reflexivity.
  - destruct (f a) as [b|e] eqn:Ea.
    + destruct (comprehension f l) as [bs'|e'] eqn:El.
      * split.
        -- intros H. injection H as <-. constructor; [exact Ea | now apply IH].
        -- intros H. inversion H as [|? b0 ? bs0 Hb Hbs]; subst.
           apply IH in Hbs. congruence.
      * split; [discriminate|].
        intros H. inversion H as [|? b0 ? bs0 Hb Hbs]; subst.
        apply IH in Hbs. discriminate.
    + split; [discriminate|].
      intros H. inversion H; subst. congruence.
Qed.

Lemma comprehension_length {A B} (f : A -> res B) (l : list A) (bs : list B) :
  comprehension f l = Ok bs -> length bs = length l.
Proof.
  intros H. apply comprehension_ok_iff in H.
  symmetry. eapply Forall2_length. exact H.
Qed.

Lemma Forall2_nth_pair {A B} (R : A -> B -> Prop) (l : list A) (l' : list B)
    (da : A) (db : B) :
  Forall2 R l l' -> forall i, (i < length l)%nat -> R (nth i l da) (nth i l' db).
Proof.
  induction 1 as [|a b l l' Hab H IH]; intros i Hi; cbn in Hi.
  - lia.
  - destruct i as [|i]; cbn; [exact Hab | apply IH; lia].
Qed.

Lemma comprehension_nth {A B} (f : A -> res B) (l : list A) (bs : list B)
    (da : A) (db : B) (i : nat) :
  comprehension f l = Ok bs -> (i < length l)%nat ->
  f (nth i l da) = Ok (nth i bs db).
Proof.
  intros H Hi. apply comprehension_ok_iff in H.
  exact (Forall2_nth_pair _ _ _ da db H i Hi).
Qed.

(** A comprehension whose element expression always returns, returns. *)
Lemma comprehension_total {A B} (f : A -> res B) (l : list A) :
  Forall (fun a => exists b, f a = Ok b) l -> exists bs, comprehension f l = Ok bs.
Proof.
  induction 1 as [|a l [b Hb] _ [bs Hbs]]; cbn.
  - now exists [].
  - rewrite Hb, Hbs. now exists (b :: bs).
Qed.

(** A comprehension raises only what one of its element expressions
    raises. *)
Lemma comprehension_raise {A B} (f : A -> res B) (l : list A) (e : exn) :
  comprehension f l = Raise e -> exists a, In a l /\ f a = Raise e.
Proof.
  induction l as [|a l IH]; cbn; [discriminate|].
  destruct (f a) as [b|e'] eqn:Ea.
  - destruct (comprehension f l) as [bs|e''] eqn:El; [discriminate|].
    intros H. injection H as <-. destruct (IH eq_refl) as [a' [Hin Ha']].
    exists a'. split; [now right | exact Ha'].
  - intros H. injection H as <-. exists a. split; [now left | exact Ea].
Qed.

(** *** Arithmetic of the zooms *)

Lemma Qlt_bool_iff (x y : Q) : Qlt_bool x y = true <-> x < y.
Proof.
  unfold Qlt_bool. rewrite negb_true_iff. split.
  - intros H. apply Qnot_le_lt. intros Hle.
    apply Qle_bool_iff in Hle. congruence.
  - intros H. destruct (Qle_bool y x) eqn:E; [|reflexivity].
    apply Qle_bool_iff in E. exfalso. exact (Qlt_not_le _ _ H E).
Qed.

Lemma Qlt_bool_false_iff (x y : Q) : Qlt_bool x y = false <-> y <= x.
Proof.
  unfold Qlt_bool. rewrite negb_false_iff. apply Qle_bool_iff.
Qed.

Lemma py_div_ok (x y : Q) : ~ y == 0 -> py_div x y = Ok (x / y).
Proof.
  intros Hy. unfold py_div. destruct (Qeq_bool y 0) eqn:E; [|reflexivity].
  apply Qeq_bool_iff in E. contradiction.
Qed.

Lemma py_div_zero (x y : Q) : y == 0 -> py_div x y = Raise ZeroDivisionError.
Proof.
  intros Hy. unfold py_div. apply Qeq_bool_iff in Hy. now rewrite Hy.
Qed.

Lemma py_div_ok_inv (x y q : Q) : py_div x y = Ok q -> ~ y == 0 /\ q = x / y.
Proof.
  unfold py_div. destruct (Qeq_bool y 0) eqn:E; [discriminate|].
  intros H. injection H as <-. split; [|reflexivity].
  intros Hy. apply Qeq_bool_iff in Hy. congruence.
Qed.

Lemma py_div_raise_inv (x y : Q) (e : exn) :
  py_div x y = Raise e -> e = ZeroDivisionError /\ y == 0.
Proof.
  unfold py_div. destruct (Qeq_bool y 0) eqn:E; [|discriminate].
  intros H. injection H as <-. split; [reflexivity | now apply Qeq_bool_iff].
Qed.

(** Dividing by one changes nothing, not even the representation. *)
Lemma Qdiv_1_r_eq (x : Q) : x / 1 = x.
Proof.
  destruct x as [n d]. unfold Qdiv, Qmult, Qinv. cbn.
  now rewrite Z.mul_1_r, Pos.mul_1_r.
Qed.

(** [round] never goes below the floor, and reaches 2 from 3/2 on. *)
Lemma py_round_ge_floor (x : Q) : (Qfloor x <= py_round x)%Z.
Proof.
  unfold py_round.
  destruct (Qcompare (x - inject_Z (Qfloor x)) (1 # 2)); try lia.
  destruct (Z.even (Qfloor x)); lia.
Qed.

Lemma py_round_ge_2 (x : Q) : 3 # 2 <= x -> (2 <= py_round x)%Z.
Proof.
  intros Hx.
  assert (H1 : (1 <= Qfloor x)%Z).
  { change 1%Z with (Qfloor (3 # 2)). now apply Qfloor_resp_le. }
  destruct (Z.eq_dec (Qfloor x) 1) as [E|NE].
  - unfold py_round. rewrite E.
    destruct (Qcompare (x - inject_Z 1) (1 # 2)) eqn:C; cbn; try lia.
    apply Qlt_alt in C. exfalso.
    apply (Qlt_not_le _ _ C). unfold Qminus.
    apply (Qplus_le_l _ _ (inject_Z 1)). ring_simplify.
    exact Hx.
  - pose proof (py_round_ge_floor x). lia.
Qed.

Lemma py_int_inject_Z (x : Q) (n : Z) :
  (0 <= n)%Z -> x == inject_Z n -> py_int x = n.
Proof.
  intros Hn Hx. unfold py_int.
  assert (H0 : Qle_bool 0 x = true).
  { apply Qle_bool_iff. rewrite Hx. change 0 with (inject_Z 0).
    now rewrite <- Zle_Qle. }
  rewrite H0, Hx. apply Qfloor_Z.
Qed.

(** *** Mean mode, one axis *)

Lemma inject_Z_nonzero (n : Z) : n <> 0%Z -> ~ inject_Z n == 0.
Proof. intros Hn H. unfold Qeq in H. cbn in H. lia. Qed.

Lemma Qinv_inject_Z_nonzero (n : Z) : n <> 0%Z -> ~ 1 / inject_Z n == 0.
Proof.
  intros Hn H. apply (inject_Z_nonzero _ Hn).
  assert (E : 1 / inject_Z n * inject_Z n == 1)
    by (field; now apply inject_Z_nonzero).
  rewrite H in E. ring_simplify in E. discriminate E.
Qed.

(** What [mean_zoom_factor] returns when it returns. *)
Lemma mean_zoom_factor_ok_inv (input_zoom output_zoom zf : Q) :
  mean_zoom_factor input_zoom output_zoom = Ok zf ->
  zf = (if Qlt_bool ((2 # 3) * output_zoom) input_zoom then 1
        else 1 / inject_Z (py_round (output_zoom / input_zoom)))
  /\ (Qlt_bool ((2 # 3) * output_zoom) input_zoom = false ->
      ~ input_zoom == 0 /\ py_round (output_zoom / input_zoom) <> 0%Z).
Proof.
  unfold mean_zoom_factor.
  destruct (Qlt_bool ((2 # 3) * output_zoom) input_zoom).
  - intros H. injection H as <-. split; [reflexivity | discriminate].
  - intros H. apply bind_ok_inv in H as [ratio [Hr H]].
    apply py_div_ok_inv in Hr as [Hiz ->].
    apply py_div_ok_inv in H as [Hn ->].
    split; [reflexivity|]. intros _. split; [exact Hiz|].
    intros E. apply Hn. now rewrite E.
Qed.

(** On an axis with a positive input zoom that is not left unchanged, the
    rounded ratio is at least 2. *)
Lemma changed_axis_ratio (input_zoom output_zoom : Q) :
  0 < input_zoom ->
  Qlt_bool ((2 # 3) * output_zoom) input_zoom = false ->
  input_zoom <= (2 # 3) * output_zoom
  /\ (2 <= py_round (output_zoom / input_zoom))%Z.
Proof.
  intros Hpos Hch. apply Qlt_bool_false_iff in Hch. split; [exact Hch|].
  apply py_round_ge_2. apply Qle_shift_div_l; [exact Hpos | lra].
Qed.

(** Lines 78-80 on an axis with a positive input zoom: every division has a
    non-zero divisor and the window size is 1 on an unchanged axis and the
    rounded ratio, at least 2, otherwise. *)
Lemma mean_axis_safe (input_zoom output_zoom : Q) :
  0 < input_zoom ->
  exists zf z w,
    mean_zoom_factor input_zoom output_zoom = Ok zf
    /\ py_div input_zoom zf = Ok z
    /\ window_size zf = Ok w
    /\ (1 <= w)%Z.
Proof.
  intros Hpos. unfold mean_zoom_factor.
  destruct (Qlt_bool ((2 # 3) * output_zoom) input_zoom) eqn:Hch.
  - exists 1, (input_zoom / 1), 1%Z. repeat split; first [reflexivity | lia].
  - destruct (changed_axis_ratio _ _ Hpos Hch) as [_ Hn].
    set (n := py_round (output_zoom / input_zoom)) in *.
    assert (Hiz : ~ input_zoom == 0) by lra.
    assert (Hn0 : n <> 0%Z) by lia.
    exists (1 / inject_Z n), (input_zoom / (1 / inject_Z n)), n.
    rewrite (py_div_ok _ _ Hiz). cbn [Py.bind]. fold n.
    rewrite (py_div_ok _ _ (inject_Z_nonzero _ Hn0)).
    rewrite (py_div_ok _ _ (Qinv_inject_Z_nonzero _ Hn0)).
    unfold window_size. rewrite (py_div_ok _ _ (Qinv_inject_Z_nonzero _ Hn0)).
    cbn [Py.bind]. repeat split; try lia.
    f_equal. apply py_int_inject_Z; [lia|].
    field. now apply inject_Z_nonzero.
Qed.

(** *** Mean mode, all axes *)

(** Lines 78-80 on positive input zooms: the three comprehensions return,
    and every window size is at least 1. *)
Lemma mean_lists_safe (input_zooms output_zooms : list Q) :
  Forall (fun z => 0 < z) input_zooms ->
  exists zoom_factors output_zooms' window_sizes,
    comprehension (fun p => mean_zoom_factor (fst p) (snd p))
                  (combine input_zooms output_zooms) = Ok zoom_factors
    /\ comprehension (fun p => py_div (fst p) (snd p))
                     (combine input_zooms zoom_factors) = Ok output_zooms'
    /\ comprehension window_size zoom_factors = Ok window_sizes
    /\ Forall (fun w => (1 <= w)%Z) window_sizes.
Proof.
  intros Hpos. revert output_zooms.
  induction Hpos as [|iz ins Hiz Hins IH]; intros outs.
  - exists [], [], []. cbn. repeat split; constructor.
  - destruct outs as [|oz outs].
    + exists [], [], []. cbn. repeat split; constructor.
    + destruct (mean_axis_safe iz oz Hiz) as [zf [z [w [Hzf [Hz [Hw Hw1]]]]]].
      destruct (IH outs) as [zfs [zs [ws [Hzfs [Hzs [Hws Hws1]]]]]].
      exists (zf :: zfs), (z :: zs), (w :: ws).
      cbn [combine comprehension fst snd].
      rewrite Hzf, Hzfs, Hz, Hzs, Hw, Hws.
      repeat split. now constructor.
Qed.

(** *** The consistency test of line 73 *)

Lemma Qle_bool_Rle (x y : Q) : Qle_bool x y = true <-> (Q2R x <= Q2R y)%R.
Proof.
  rewrite Qle_bool_iff. split; [apply Qle_Rle | apply Rle_Qle].
Qed.

(** [isclose_sqrt a s] is numpy's closeness test of [a] against the square
    root of [s]. *)
Lemma isclose_sqrt_spec (a s : Q) :
  0 <= s ->
  isclose_sqrt a s = true <->
  (Rabs (Q2R a - sqrt (Q2R s)) <= Q2R atol + Q2R rtol * Rabs (sqrt (Q2R s)))%R.
Proof.
  intros Hs. apply Qle_Rle in Hs. rewrite RMicromega.Q2R_0 in Hs.
  pose proof (sqrt_pos (Q2R s)) as Hn.
  pose proof (sqrt_sqrt _ Hs) as Hnn.
  set (n := sqrt (Q2R s)) in *.
  rewrite (Rabs_pos_eq n Hn).
  unfold isclose_sqrt.
  rewrite !andb_true_iff, orb_true_iff, !Qle_bool_Rle.
  rewrite !Q2R_mult, !Q2R_minus, !Q2R_plus, <- Hnn.
  replace (Q2R 0) with 0%R by (unfold Q2R; cbn; lra).
  replace (Q2R 1) with 1%R by (unfold Q2R; cbn; lra).
  assert (Ht : Q2R atol = (1 / 100000000)%R) by (unfold Q2R, atol; cbn; lra).
  assert (Hr : Q2R rtol = (1 / 100000)%R) by (unfold Q2R, rtol; cbn; lra).
  rewrite Ht, Hr. set (A := Q2R a).
  split.
  - intros [[H1 H2] H3].
    apply Rabs_le. split.
    + assert ((1 - 1 / 100000) * n <= A + 1 / 100000000)%R by nra. lra.
    + destruct H1 as [H1|H1]; [nra|].
      assert (A - 1 / 100000000 <= (1 + 1 / 100000) * n)%R by nra. lra.
  - intros H.
    pose proof (Rle_abs (A - n)) as Hhi.
    pose proof (Rle_abs (- (A - n))) as Hlo. rewrite Rabs_Ropp in Hlo.
    repeat split.
    + destruct (Rle_dec (A - 1 / 100000000) 0); [now left | right; nra].
    + nra.
    + nra.
Qed.

Lemma spatial_sqnorms_nonneg (aff : ndarray Q) :
  Forall (fun s => 0 <= s) (spatial_sqnorms aff).
Proof.
  unfold spatial_sqnorms. cbn [map].
  repeat constructor; nra.
Qed.

(** *** Volumes with fewer than three axes (line 99) *)

Lemma rescale_affine_two_axes (aff : ndarray Q) (z0 z1 : Q) :
  rescale_affine aff [z0; z1]
  = Raise (ValueError "operands could not be broadcast together").
Proof. reflexivity. Qed.

Lemma rescale_affine_one_axis (aff : ndarray Q) (z : Q) :
  rescale_affine aff [z] = divide_spatial_block aff [z; z; z].
Proof. reflexivity. Qed.

(** *** Where exceptions come from *)

Lemma bind_raise_inv {A B} (m : res A) (k : A -> res B) (e : exn) :
  Py.bind m k = Raise e -> m = Raise e \/ exists a, m = Ok a /\ k a = Raise e.
Proof.
  destruct m as [a|e']; cbn; intros H; [right; eauto | left].
  now injection H as <-.
Qed.

Lemma call_raise_inv {A} (r : ext A) (e : exn) :
  call r = Raise e -> exists what, e = ExternalError what.
Proof. destruct r; cbn; [discriminate|]. intros H. injection H as <-. eauto. Qed.

Lemma assert_raise_inv (c : bool) (msg : assert_msg) (e : exn) :
  assert c msg = Raise e -> c = false /\ e = AssertionError msg.
Proof. destruct c; cbn; [discriminate|]. intros H. injection H as <-. auto. Qed.

Lemma np_allclose_with_raise_inv (close : Q -> Q -> bool) (a b : list Q) (e : exn) :
  np_allclose_with close a b = Raise e -> exists what, e = ValueError what.
Proof.
  unfold np_allclose_with. destruct (broadcast a b); [discriminate|].
  intros H. injection H as <-. eauto.
Qed.

Lemma mean_zoom_factor_raise_inv (iz oz : Q) (e : exn) :
  mean_zoom_factor iz oz = Raise e -> e = ZeroDivisionError.
Proof.
  unfold mean_zoom_factor. destruct (Qlt_bool ((2 # 3) * oz) iz); [discriminate|].
  intros H. apply bind_raise_inv in H as [H | [r [_ H]]];
    now apply py_div_raise_inv in H.
Qed.

Lemma window_size_raise_inv (zf : Q) (e : exn) :
  window_size zf = Raise e -> e = ZeroDivisionError.
Proof.
  unfold window_size. intros H.
  apply bind_raise_inv in H as [H | [r [_ H]]]; [|discriminate].
  now apply py_div_raise_inv in H.
Qed.

Lemma rescale_affine_raise_inv (aff : ndarray Q) (zfs : list Q) (e : exn) :
  rescale_affine aff zfs = Raise e ->
  e = ZeroDivisionError \/ exists what, e = ValueError what.
Proof.
  assert (Hd : forall fs, divide_spatial_block aff fs = Raise e ->
                          e = ZeroDivisionError).
  { intros fs. unfold divide_spatial_block.
    destruct (existsb _ fs); [|discriminate]. intros H. now injection H as <-. }
  unfold rescale_affine.
  destruct (firstn 3 zfs) as [|z0 [|z1 [|z2 [|z3 l]]]]; intros H;
    try (left; now apply Hd in H);
    right; injection H as <-; eauto.
Qed.

Lemma new_image_with_zooms_raise_inv (array aff : ndarray Q) (zs : list Q) (e : exn) :
  new_image_with_zooms array aff zs = Raise e -> exists what, e = ExternalError what.
Proof.
  unfold new_image_with_zooms.
  destruct (negb _); [intros H; injection H as <-; eauto|].
  destruct (existsb _ zs); [intros H; injection H as <-; eauto | discriminate].
Qed.

Lemma forallb_false_Exists {A} (f : A -> bool) (l : list A) :
  forallb f l = false <-> Exists (fun a => f a = false) l.
Proof.
  induction l as [|a l IH]; cbn.
  - split; [discriminate | intros H; inversion H].
  - rewrite andb_false_iff, IH. split.
    + intros [H|H]; [now left | now right].
    + intros H. inversion H; subst; auto.
Qed.

(** *** Arrays built by the resampler *)

Lemma item_zeros_like (a : ndarray Q) (idx : list nat) :
  item 0 (zeros_like a) idx = 0.
Proof. unfold item, zeros_like. cbn [shape data]. apply nth_repeat. Qed.

Lemma item_paste_overlap (source target : ndarray Q) (idx : list nat) :
  in_bounds (shape target) idx ->
  item 0 (paste_overlap source target) idx
  = if in_boundsb (overlap source target) idx
    then item 0 source idx else item 0 target idx.
Proof.
  intros H. unfold paste_overlap.
  now rewrite (item_tabulate 0 (shape target) _ idx H).
Qed.

Lemma nth_imap {A B} (f : nat -> A -> B) (l : list A) (k : nat) (d : A) (d' : B) :
  (k < length l)%nat -> nth k (imap f l) d' = f k (nth k l d).
Proof.
  intros Hk. unfold imap.
  rewrite (nth_indep _ d' ((fun p => f (fst p) (snd p)) (0%nat, d)))
    by now rewrite length_map, length_combine, length_seq, Nat.min_id.
  rewrite (map_nth (fun p => f (fst p) (snd p))).
  rewrite combine_nth by now rewrite length_seq.
  cbn [fst snd]. now rewrite seq_nth.
Qed.


(** The entries of a 4x4 affine after the division of line 99. *)
Lemma item_divide_spatial_block (aff aff' : ndarray Q) (factors : list Q) :
  shape aff = [4; 4]%nat -> well_formed aff ->
  divide_spatial_block aff factors = Ok aff' ->
  shape aff' = [4; 4]%nat
  /\ forall i j, (i < 4)%nat -> (j < 4)%nat ->
       item 0 aff' [i; j]
       = if ((i <? 3) && (j <? 3))%nat
         then item 0 aff [i; j] / nth j factors 0
         else item 0 aff [i; j].
Proof.
  intros Hs Hwf. unfold divide_spatial_block.
  destruct (existsb _ factors); [discriminate|].
  intros H. injection H as <-. cbn [shape]. split; [exact Hs|].
  intros i j Hi Hj. unfold item. cbn [shape data]. rewrite Hs.
  unfold well_formed in Hwf. rewrite Hs in Hwf. cbn in Hwf.
  cbn [nth ravel size fold_right].
  rewrite (nth_imap _ _ _ 0 0) by (rewrite Hwf; lia).
  destruct i as [|[|[|[|i]]]]; try lia;
    destruct j as [|[|[|[|j]]]]; try lia; reflexivity.
Qed.

(** *** [round] meets its specification *)





(** The overlap of two shapes, axis by axis. *)
Lemma in_boundsb_overlap_iff (s t idx : list nat) :
  length s = length t -> length idx = length t ->
  in_boundsb (map (fun p => Nat.min (fst p) (snd p)) (combine s t)) idx = true
  <-> forall k, (k < length idx)%nat ->
        (nth k idx 0%nat < Nat.min (nth k s 0%nat) (nth k t 0%nat))%nat.
Proof.
  revert t idx. induction s as [|n s IH]; intros [|m t] [|i idx] Hst Hit;
    cbn [length] in *; try discriminate.
  - cbn. split; [intros _ k Hk; lia | reflexivity].
  - cbn [combine map in_boundsb fst snd].
    rewrite andb_true_iff, Nat.ltb_lt, (IH t idx) by lia.
    split.
    + intros [H0 H] [|k] Hk; cbn [nth]; [exact H0 | apply H; lia].
    + intros H. split.
      * exact (H 0%nat ltac:(lia)).
      * intros k Hk. exact (H (S k) ltac:(lia)).
Qed.

Section Properties.

Variable zoom : ndarray Q -> list Q -> Z -> ext (ndarray Q).
Variable gaussian_filter : ndarray Q -> list Q -> ext (ndarray Q).
Variable downsample_array : ndarray Q -> list Z -> ext (ndarray Q).
Variable assign_leading_slices : ndarray Q -> ndarray Q -> ext (ndarray Q).

Local Abbreviation resampled' :=
  (resampled zoom gaussian_filter downsample_array).
Local Abbreviation resample_nifti' :=
  (resample_nifti zoom gaussian_filter downsample_array assign_leading_slices).

(** C10 (amended): in mean mode, when every axis satisfies
    4/3 * outputZoom >= inputZoom and every input zoom is positive, each
    axis that is not left unchanged has inputZoom <= 2/3 * outputZoom and a
    rounded ratio round(outputZoom / inputZoom) of at least 2; the divisions
    of lines 78-80 all have a non-zero divisor, so these lines come through
    to the call of [downsample_array], and every window size handed to it is
    an integer >= 1. *)
Theorem mean_mode_divisions_are_safe
    (input_array : ndarray Q) (input_zooms output_zooms : list Q) (prefilter : bool) :
  Forall (fun z => 0 < z) input_zooms ->
  forallb (fun p => mean_supported (fst p) (snd p))
          (combine output_zooms input_zooms) = true ->
  (forall iz oz, In (iz, oz) (combine input_zooms output_zooms) ->
     Qlt_bool ((2 # 3) * oz) iz = false ->
     iz <= (2 # 3) * oz /\ (2 <= py_round (oz / iz))%Z)
  /\ exists zoom_factors output_zooms' window_sizes,
       comprehension (fun p => mean_zoom_factor (fst p) (snd p))
                     (combine input_zooms output_zooms) = Ok zoom_factors
       /\ comprehension (fun p => py_div (fst p) (snd p))
                        (combine input_zooms zoom_factors) = Ok output_zooms'
       /\ comprehension window_size zoom_factors = Ok window_sizes
       /\ Forall (fun w => (1 <= w)%Z) window_sizes
       /\ resampled' input_array input_zooms output_zooms Mean prefilter
          = (output_array <- call (downsample_array input_array window_sizes) ;;
             Ok (output_array, zoom_factors, output_zooms'))%py.
Proof.
  intros Hpos Hsup. split.
  - intros iz oz Hin Hch. apply changed_axis_ratio; [|exact Hch].
    apply in_combine_l in Hin.
    rewrite Forall_forall in Hpos. now apply Hpos.
  - destruct (mean_lists_safe _ output_zooms Hpos)
      as [zfs [zs [ws [Hzfs [Hzs [Hws Hws1]]]]]].
    exists zfs, zs, ws. repeat split; try assumption.
    unfold resampled. rewrite Hsup. cbn [assert Py.bind].
    rewrite Hzfs. cbn [Py.bind]. rewrite Hzs. cbn [Py.bind].
    rewrite Hws. reflexivity.
Qed.

(** *** The steps of a call that returns *)

Lemma new_image_with_zooms_ok_inv (array aff : ndarray Q) (zs : list Q)
    (out : Nifti1Image) :
  new_image_with_zooms array aff zs = Ok out ->
  dataobj out = array /\ affine out = aff /\ zooms out = zs
  /\ length zs = length (shape array).
Proof.
  unfold new_image_with_zooms.
  destruct (length zs =? length (shape array))%nat eqn:El; cbn [negb];
    [|discriminate].
  destruct (existsb (fun z => Qlt_bool z 0) zs); [discriminate|].
  intros H. injection H as <-. cbn. apply Nat.eqb_eq in El. auto.
Qed.

Lemma resample_nifti_ok_inv (input_nii : Nifti1Image)
    (output_zooms : list (option Q)) (order : order_arg) (prefilter : bool)
    (reference_nii : option Nifti1Image) (out : Nifti1Image) :
  resample_nifti' input_nii output_zooms order prefilter reference_nii = Ok out ->
  length (zooms input_nii) = length output_zooms
  /\ np_allclose_with isclose_sqrt (firstn 3 (zooms input_nii))
                      (spatial_sqnorms (affine input_nii)) = Ok true
  /\ exists output_array zoom_factors,
       resampled' (dataobj input_nii) (zooms input_nii)
                  (substitute_none (zooms input_nii) output_zooms) order prefilter
       = Ok (output_array, zoom_factors, zooms out)
       /\ match reference_nii with
          | Some reference =>
              fit_to_reference assign_leading_slices output_array (zooms out) reference
              = Ok (dataobj out, affine out)
          | None =>
              dataobj out = output_array
              /\ rescale_affine (affine input_nii) zoom_factors = Ok (affine out)
          end.
Proof.
  unfold resample_nifti. intros H.
  apply bind_ok_inv in H as [u [Hlen H]]. apply assert_ok_inv in Hlen.
  apply bind_ok_inv in H as [consistent [Hc H]].
  apply bind_ok_inv in H as [u' [Hc' H]]. apply assert_ok_inv in Hc'. subst consistent.
  apply bind_ok_inv in H as [[[c zfs] zs] [Hres H]].
  apply bind_ok_inv in H as [[a aff] [Hfit H]].
  apply new_image_with_zooms_ok_inv in H as [Ha [Haff [Hz _]]]. subst a aff zs.
  split; [now apply Nat.eqb_eq|]. split; [exact Hc|].
  exists c, zfs. split; [exact Hres|].
  destruct reference_nii as [reference|].
  - exact Hfit.
  - apply bind_ok_inv in Hfit as [aff [Haff Hfit]].
    injection Hfit as <- <-. now split.
Qed.

Lemma nth_substitute_none (input_zooms : list Q) (output_zooms : list (option Q))
    (i : nat) :
  length input_zooms = length output_zooms ->
  nth i (substitute_none input_zooms output_zooms) 0
  = match nth i output_zooms None with
    | None => nth i input_zooms 0
    | Some z => z
    end.
Proof.
  intros Hlen. unfold substitute_none.
  set (f := fun p : Q * option Q => match snd p with None => fst p | Some z => z end).
  change 0 with (f (0, None)) at 1.
  rewrite (map_nth f), combine_nth by exact Hlen. reflexivity.
Qed.

Lemma length_substitute_none (input_zooms : list Q) (output_zooms : list (option Q)) :
  length input_zooms = length output_zooms ->
  length (substitute_none input_zooms output_zooms) = length input_zooms.
Proof.
  intros Hlen. unfold substitute_none.
  rewrite length_map, length_combine, <- Hlen. apply Nat.min_id.
Qed.

(** Lines 77-80, when they come through. *)
Lemma resampled_mean_ok_inv (input_array : ndarray Q)
    (input_zooms output_zooms : list Q) (prefilter : bool)
    (output_array : ndarray Q) (zoom_factors output_zooms' : list Q) :
  length output_zooms = length input_zooms ->
  resampled' input_array input_zooms output_zooms Mean prefilter
  = Ok (output_array, zoom_factors, output_zooms') ->
  length zoom_factors = length input_zooms
  /\ length output_zooms' = length input_zooms
  /\ forall i, (i < length input_zooms)%nat ->
       mean_zoom_factor (nth i input_zooms 0) (nth i output_zooms 0)
       = Ok (nth i zoom_factors 0)
       /\ py_div (nth i input_zooms 0) (nth i zoom_factors 0)
          = Ok (nth i output_zooms' 0).
Proof.
  intros Hlen Hres. unfold resampled in Hres.
  apply bind_ok_inv in Hres as [u [_ Hres]].
  apply bind_ok_inv in Hres as [zfs [Hzfs Hres]].
  apply bind_ok_inv in Hres as [zs [Hzs Hres]].
  apply bind_ok_inv in Hres as [ws [_ Hres]].
  apply bind_ok_inv in Hres as [a [_ Hres]].
  injection Hres as -> -> ->.
  assert (Hlzfs : length zoom_factors = length input_zooms).
  { rewrite (comprehension_length _ _ _ Hzfs), length_combine, Hlen.
    apply Nat.min_id. }
  assert (Hlzs : length output_zooms' = length input_zooms).
  { rewrite (comprehension_length _ _ _ Hzs), length_combine, Hlzfs.
    apply Nat.min_id. }
  split; [exact Hlzfs|]. split; [exact Hlzs|].
  intros i Hi. split.
  - pose proof (comprehension_nth _ _ _ (0, 0) 0 i Hzfs) as Hn.
    rewrite combine_nth in Hn by now rewrite Hlen.
    apply Hn. rewrite length_combine, Hlen, Nat.min_id. exact Hi.
  - pose proof (comprehension_nth _ _ _ (0, 0) 0 i Hzs) as Hn.
    rewrite combine_nth in Hn by now rewrite Hlzfs.
    apply Hn. rewrite length_combine, Hlzfs, Nat.min_id. exact Hi.
Qed.

(** Lines 83-88, when they come through. *)
Lemma resampled_spline_ok_inv (input_array : ndarray Q)
    (input_zooms output_zooms : list Q) (n : Z) (prefilter : bool)
    (output_array : ndarray Q) (zoom_factors output_zooms' : list Q) :
  length output_zooms = length input_zooms ->
  resampled' input_array input_zooms output_zooms (IntOrder n) prefilter
  = Ok (output_array, zoom_factors, output_zooms') ->
  output_zooms' = output_zooms
  /\ length zoom_factors = length input_zooms
  /\ forall i, (i < length input_zooms)%nat ->
       py_div (nth i input_zooms 0) (nth i output_zooms 0)
       = Ok (nth i zoom_factors 0).
Proof.
  intros Hlen Hres. unfold resampled in Hres.
  apply bind_ok_inv in Hres as [zfs [Hzfs Hres]].
  apply bind_ok_inv in Hres as [a [_ Hres]].
  apply bind_ok_inv in Hres as [c [_ Hres]].
  injection Hres as -> -> ->.
  split; [reflexivity|].
  assert (Hlzfs : length zoom_factors = length input_zooms).
  { rewrite (comprehension_length _ _ _ Hzfs), length_combine, Hlen.
    apply Nat.min_id. }
  split; [exact Hlzfs|].
  intros i Hi.
  pose proof (comprehension_nth _ _ _ (0, 0) 0 i Hzfs) as Hn.
  rewrite combine_nth in Hn by now rewrite Hlen.
  apply Hn. rewrite length_combine, Hlen, Nat.min_id. exact Hi.
Qed.


(** C9: in mean mode the prefilter argument is not looked at: both values
    give the same outcome (the same data array, affine and zooms, or the
    same exception). *)
Theorem mean_mode_ignores_prefilter (input_nii : Nifti1Image)
    (output_zooms : list (option Q)) (reference_nii : option Nifti1Image) :
  resample_nifti' input_nii output_zooms Mean true reference_nii
  = resample_nifti' input_nii output_zooms Mean false reference_nii.
Proof.
  unfold resample_nifti.
  destruct (assert _ DimensionsMismatch) as [u|e]; [|reflexivity].
  cbn [Py.bind].
  destruct (np_allclose_with _ _ _) as [c|e]; [|reflexivity].
  cbn [Py.bind].
  destruct (assert c InconsistentAffineAndZooms) as [u'|e]; [|reflexivity].
  cbn [Py.bind].
  change (resampled' (dataobj input_nii) (zooms input_nii)
            (substitute_none (zooms input_nii) output_zooms) Mean true)
    with (resampled' (dataobj input_nii) (zooms input_nii)
            (substitute_none (zooms input_nii) output_zooms) Mean false).
  reflexivity.
Qed.

(** *** The assertion of line 77 *)

Lemma fit_to_reference_raise_inv (output_array : ndarray Q) (zs : list Q)
    (reference : Nifti1Image) (e : exn) :
  fit_to_reference assign_leading_slices output_array zs reference = Raise e ->
  ~ mean_error e.
Proof.
  unfold fit_to_reference. intros H [zs' ->].
  apply bind_raise_inv in H as [H | [same [_ H]]].
  { apply np_allclose_with_raise_inv in H as [w H]. discriminate. }
  apply bind_raise_inv in H as [H | [u [_ H]]].
  { apply assert_raise_inv in H as [_ H]. discriminate. }
  apply bind_raise_inv in H as [H | [a [_ H]]]; [|discriminate].
  destruct (_ =? _)%nat; [discriminate|].
  apply call_raise_inv in H as [w H]. discriminate.
Qed.

(** Past the assertion, mean mode raises nothing but a division by zero or
    an exception of [downsample_array]. *)
Lemma resampled_mean_raise_inv (input_array : ndarray Q)
    (input_zooms output_zooms : list Q) (prefilter : bool) (e : exn) :
  forallb (fun p => mean_supported (fst p) (snd p))
          (combine output_zooms input_zooms) = true ->
  resampled' input_array input_zooms output_zooms Mean prefilter = Raise e ->
  e = ZeroDivisionError \/ exists what, e = ExternalError what.
Proof.
  intros Hsup H. unfold resampled in H. rewrite Hsup in H. cbn [assert Py.bind] in H.
  apply bind_raise_inv in H as [H | [zfs [_ H]]].
  { apply comprehension_raise in H as [p [_ H]].
    left. now apply mean_zoom_factor_raise_inv in H. }
  apply bind_raise_inv in H as [H | [zs [_ H]]].
  { apply comprehension_raise in H as [p [_ H]].
    left. now apply py_div_raise_inv in H. }
  apply bind_raise_inv in H as [H | [ws [_ H]]].
  { apply comprehension_raise in H as [p [_ H]].
    left. now apply window_size_raise_inv in H. }
  apply bind_raise_inv in H as [H | [a [_ H]]]; [|discriminate].
  right. now apply call_raise_inv in H.
Qed.

(** C4 (amended): in mean mode, with the requested zooms after [None]
    substitution, [resample_nifti] raises whenever some axis with a positive
    input zoom violates 4/3 * outputZoom >= inputZoom by more than the
    rounding of the comparison; once the checks of lines 72 and 73 have
    passed the exception is the [AssertionError] of line 77, whose message
    shows the whole tuple of input zooms (of every axis, violating or not);
    when every axis satisfies the inequality that exception is not raised. *)
Theorem mean_mode_needs_supported_zooms (input_nii : Nifti1Image)
    (output_zooms : list (option Q)) (prefilter : bool)
    (reference_nii : option Nifti1Image) :
  let input_zooms := zooms input_nii in
  let requested := substitute_none input_zooms output_zooms in
  let outcome :=
    resample_nifti' input_nii output_zooms Mean prefilter reference_nii in
  (Exists (fun p => clearly_unsupported (fst p) (snd p))
          (combine requested input_zooms) ->
   (exists e, outcome = Raise e)
   /\ (length input_zooms = length output_zooms ->
       np_allclose_with isclose_sqrt (firstn 3 input_zooms)
                        (spatial_sqnorms (affine input_nii)) = Ok true ->
       outcome = Raise (AssertionError (MeanOnlyDownsamples input_zooms))))
  /\ (Forall (fun p => snd p <= (4 # 3) * fst p) (combine requested input_zooms) ->
      forall e, outcome = Raise e -> ~ mean_error e).
Proof.
  cbn zeta. split.
  - intros Hex.
    assert (Hsup : forallb (fun p => mean_supported (fst p) (snd p))
                     (combine (substitute_none (zooms input_nii) output_zooms)
                              (zooms input_nii)) = false).
    { apply forallb_false_Exists. eapply Exists_impl; [|exact Hex].
      intros p [Hpos Hp]. unfold mean_supported.
      destruct (Qle_bool _ _) eqn:E; [|reflexivity].
      apply Qle_bool_iff in E. exfalso. lra. }
    assert (Hpass : length (zooms input_nii) = length output_zooms ->
              np_allclose_with isclose_sqrt (firstn 3 (zooms input_nii))
                (spatial_sqnorms (affine input_nii)) = Ok true ->
              resample_nifti' input_nii output_zooms Mean prefilter reference_nii
              = Raise (AssertionError (MeanOnlyDownsamples (zooms input_nii)))).
    { intros Hlen Hc. unfold resample_nifti, resampled.
      apply Nat.eqb_eq in Hlen. rewrite Hlen, Hc, Hsup. reflexivity. }
    split; [|exact Hpass].
    unfold resample_nifti.
    destruct (length (zooms input_nii) =? length output_zooms)%nat eqn:Hlen;
      cbn [assert Py.bind]; [|eauto].
    destruct (np_allclose_with _ _ _) as [[|]|e] eqn:Hc; cbn [assert Py.bind];
      [|eauto|eauto].
    unfold resampled. rewrite Hsup. cbn. eauto.
  - intros Hall e H Hme.
    assert (Hsup : forallb (fun p => mean_supported (fst p) (snd p))
                     (combine (substitute_none (zooms input_nii) output_zooms)
                              (zooms input_nii)) = true).
    { apply forallb_forall. intros p Hp. rewrite Forall_forall in Hall.
      apply Qle_bool_iff. now apply Hall. }
    destruct Hme as [zs ->]. unfold resample_nifti in H.
    apply bind_raise_inv in H as [H | [u [_ H]]].
    { apply assert_raise_inv in H as [_ H]. discriminate. }
    apply bind_raise_inv in H as [H | [c [_ H]]].
    { apply np_allclose_with_raise_inv in H as [w H]. discriminate. }
    apply bind_raise_inv in H as [H | [u' [_ H]]].
    { apply assert_raise_inv in H as [_ H]. discriminate. }
    apply bind_raise_inv in H as [H | [[[a zfs] zs'] [_ H]]].
    { apply (resampled_mean_raise_inv _ _ _ _ _ Hsup) in H as [H | [w H]];
        discriminate. }
    apply bind_raise_inv in H as [H | [[a' aff] [_ H]]].
    { destruct reference_nii as [reference|].
      - apply fit_to_reference_raise_inv in H. apply H. now exists zs.
      - apply bind_raise_inv in H as [H | [aff [_ H]]]; [|discriminate].
        apply rescale_affine_raise_inv in H as [H | [w H]]; discriminate. }
    apply new_image_with_zooms_raise_inv in H as [w H]. discriminate.
Qed.

(** *** Reference grid and affine *)

(** C5: when a reference volume is given and [resample_nifti] returns (so
    the reference zooms match the computed output zooms), the result array
    has the shape of the reference array, holds the computed resampled array
    on the overlap (index below the minimum of the two extents on every
    axis, starting at index 0) and zero elsewhere, and the result affine is
    the affine of the reference volume. *)
Theorem reference_grid_is_cropped_or_padded (input_nii : Nifti1Image)
    (output_zooms : list (option Q)) (order : order_arg) (prefilter : bool)
    (reference : Nifti1Image) (out : Nifti1Image)
    (computed : ndarray Q) (zoom_factors computed_zooms : list Q) :
  resampled' (dataobj input_nii) (zooms input_nii)
             (substitute_none (zooms input_nii) output_zooms) order prefilter
  = Ok (computed, zoom_factors, computed_zooms) ->
  length (shape computed) = length (shape (dataobj reference)) ->
  resample_nifti' input_nii output_zooms order prefilter (Some reference) = Ok out ->
  np_allclose computed_zooms (zooms reference) = Ok true
  /\ shape (dataobj out) = shape (dataobj reference)
  /\ (forall idx, in_bounds (shape (dataobj reference)) idx ->
        let below_both :=
          forall k, (k < length idx)%nat ->
            (nth k idx 0 < Nat.min (nth k (shape computed) 0)
                                   (nth k (shape (dataobj reference)) 0))%nat in
        (below_both -> item 0 (dataobj out) idx = item 0 computed idx)
        /\ (~ below_both -> item 0 (dataobj out) idx = 0))
  /\ affine out = affine reference.
Proof.
  intros Hres Hrank H.
  apply resample_nifti_ok_inv in H as [_ [_ [c [zfs [Hres' Hfit]]]]].
  rewrite Hres in Hres'. injection Hres' as <- <- Hz. rewrite <- Hz in Hfit.
  unfold fit_to_reference in Hfit.
  apply bind_ok_inv in Hfit as [same [Hsame Hfit]].
  apply bind_ok_inv in Hfit as [u [Hs Hfit]]. apply assert_ok_inv in Hs. subst same.
  apply bind_ok_inv in Hfit as [a [Ha Hfit]].
  injection Hfit as Hd Haff.
  change (shape (zeros_like (dataobj reference))) with (shape (dataobj reference)) in Ha.
  pose proof Hrank as Hrank'.
  apply Nat.eqb_eq in Hrank. rewrite Hrank in Ha. injection Ha as Ha.
  rewrite <- Hd, <- Ha.
  split; [exact Hsame|]. split; [reflexivity|]. split; [|now symmetry].
  intros idx Hidx below_both.
  rewrite item_paste_overlap by exact Hidx. rewrite item_zeros_like.
  assert (Hl : length idx = length (shape (dataobj reference)))
    by exact (Forall2_length Hidx).
  pose proof (in_boundsb_overlap_iff (shape computed) (shape (dataobj reference))
                idx Hrank' Hl) as Hiff.
  unfold overlap.
  change (shape (zeros_like (dataobj reference))) with (shape (dataobj reference)).
  destruct (in_boundsb _ idx) eqn:E.
  - split; [reflexivity|]. intros Hn. exfalso. apply Hn.
    exact (proj1 Hiff eq_refl).
  - split; [|reflexivity]. intros Hb. discriminate (proj2 Hiff Hb).
Qed.

(** C6: when no reference volume is given and [resample_nifti] returns on a
    volume with a 4x4 affine and at least three axes, the result affine has
    every entry of the top-left 3x3 block divided by the zoom factor of the
    entry's column (inputZoom / outputZoom of that axis in spline mode, the
    factor of line 78 in mean mode), and every other entry, the translation
    column and the bottom row included, as in the input affine. *)
Theorem affine_block_is_rescaled (input_nii : Nifti1Image)
    (output_zooms : list (option Q)) (order : order_arg) (prefilter : bool)
    (out : Nifti1Image) :
  shape (affine input_nii) = [4; 4]%nat ->
  well_formed (affine input_nii) ->
  (3 <= length (zooms input_nii))%nat ->
  resample_nifti' input_nii output_zooms order prefilter None = Ok out ->
  exists output_array zoom_factors,
    resampled' (dataobj input_nii) (zooms input_nii)
               (substitute_none (zooms input_nii) output_zooms) order prefilter
    = Ok (output_array, zoom_factors, zooms out)
    /\ (forall j, (j < 3)%nat ->
          let input_zoom := nth j (zooms input_nii) 0 in
          let output_zoom := match nth j output_zooms None with
                             | None => input_zoom
                             | Some z => z
                             end in
          match order with
          | Mean =>
              nth j zoom_factors 0
              = (if Qlt_bool ((2 # 3) * output_zoom) input_zoom then 1
                 else 1 / inject_Z (py_round (output_zoom / input_zoom)))
          | IntOrder _ => nth j zoom_factors 0 = input_zoom / output_zoom
          | OtherOrder => False
          end)
    /\ shape (affine out) = [4; 4]%nat
    /\ forall i j, (i < 4)%nat -> (j < 4)%nat ->
         item 0 (affine out) [i; j]
         = if ((i <? 3) && (j <? 3))%nat
           then item 0 (affine input_nii) [i; j] / nth j zoom_factors 0
           else item 0 (affine input_nii) [i; j].
Proof.
  intros Hs Hwf H3 H.
  apply resample_nifti_ok_inv in H as [Hlen [_ [c [zfs [Hres [_ Haff]]]]]].
  exists c, zfs. split; [exact Hres|].
  pose proof (length_substitute_none _ _ Hlen) as Hlsub.
  assert (Hzfs : length zfs = length (zooms input_nii)
                 /\ forall j, (j < 3)%nat ->
                      let input_zoom := nth j (zooms input_nii) 0 in
                      let output_zoom := match nth j output_zooms None with
                                         | None => input_zoom
                                         | Some z => z
                                         end in
                      match order with
                      | Mean =>
                          nth j zfs 0
                          = (if Qlt_bool ((2 # 3) * output_zoom) input_zoom then 1
                             else 1 / inject_Z (py_round (output_zoom / input_zoom)))
                      | IntOrder _ => nth j zfs 0 = input_zoom / output_zoom
                      | OtherOrder => False
                      end).
  { destruct order as [|n|].
    - apply resampled_mean_ok_inv in Hres as [Hl [_ Hax]]; [|exact Hlsub].
      split; [exact Hl|]. intros j Hj. cbn zeta.
      rewrite <- (nth_substitute_none _ _ j Hlen).
      destruct (Hax j ltac:(lia)) as [Hzf _].
      now apply mean_zoom_factor_ok_inv in Hzf as [Hzf _].
    - apply resampled_spline_ok_inv in Hres as [_ [Hl Hax]]; [|exact Hlsub].
      split; [exact Hl|]. intros j Hj. cbn zeta.
      rewrite <- (nth_substitute_none _ _ j Hlen).
      pose proof (Hax j ltac:(lia)) as Hzf.
      now apply py_div_ok_inv in Hzf as [_ Hzf].
    - discriminate Hres. }
  destruct Hzfs as [Hl Hfactors]. split; [exact Hfactors|].
  unfold rescale_affine in Haff.
  destruct zfs as [|z0 [|z1 [|z2 zfs]]]; cbn in Hl; try lia.
  cbn [firstn] in Haff.
  destruct (item_divide_spatial_block _ _ _ Hs Hwf Haff) as [Hs' Hitems].
  split; [exact Hs'|].
  intros i j Hi Hj. rewrite (Hitems i j Hi Hj).
  destruct ((i <? 3) && (j <? 3))%nat eqn:E; [|reflexivity].
  apply andb_true_iff in E as [_ E]. apply Nat.ltb_lt in E.
  destruct j as [|[|[|j]]]; try lia; reflexivity.
Qed.



End Properties.

(** *** The theorems on sample volumes *)

(** In spline mode the prefilter argument is read: with a smoothing step
    that raises, the call with prefilter raises and the call without it
    returns. *)
Lemma spline_mode_reads_prefilter :
  resample_nifti nearest_zoom failing_filter block_mean no_broadcast
    sample_volume [Some 2; Some 1; Some 1] (IntOrder 1) true None
  = Raise (ExternalError "gaussian_filter")
  /\ exists out,
       resample_nifti nearest_zoom failing_filter block_mean no_broadcast
         sample_volume [Some 2; Some 1; Some 1] (IntOrder 1) false None
       = Ok out.
Proof.
  split; [vm_compute; reflexivity|].
  eexists. vm_compute. reflexivity.
Qed.

(** Unit voxels, requested zooms (2, 6/5, 1): all window sizes are at
    least 1. *)
Lemma mean_mode_divisions_are_safe_witness :
  exists window_sizes,
    comprehension window_size [1 / inject_Z 2; 1; 1] = Ok window_sizes
    /\ Forall (fun w => (1 <= w)%Z) window_sizes.
Proof.
  destruct (mean_mode_divisions_are_safe nearest_zoom no_filter block_mean
              (ramp [4; 4; 2]%nat) [1; 1; 1] [2; 6 # 5; 1] true)
    as [_ [zfs [zs [ws [Hzfs [_ [Hws [Hw1 _]]]]]]]].
  - repeat constructor.
  - reflexivity.
  - exists ws. injection Hzfs as <-. split; [exact Hws | exact Hw1].
Defined.


(** Halving the zoom of axis 0 is turned down with the input zooms
    (1, 1, 1) in the message; doubling it does not raise that exception. *)
Lemma mean_mode_needs_supported_zooms_witness :
  run_resample_nifti sample_volume [Some (1 # 2); None; None] Mean true None
  = Raise (AssertionError (MeanOnlyDownsamples [1; 1; 1]))
  /\ forall e,
       run_resample_nifti sample_volume [Some 2; None; None] Mean true None = Raise e ->
       ~ mean_error e.
Proof.
  split.
  - apply (proj1 (mean_mode_needs_supported_zooms nearest_zoom no_filter block_mean
                    no_broadcast sample_volume [Some (1 # 2); None; None] true None)).
    + apply Exists_cons_hd. split; unfold Qlt; cbn; lia.
    + reflexivity.
    + vm_compute. reflexivity.
  - apply (proj2 (mean_mode_needs_supported_zooms nearest_zoom no_filter block_mean
                    no_broadcast sample_volume [Some 2; None; None] true None)).
    repeat constructor; cbn; unfold Qle; cbn; lia.
Defined.

(** C4, as stated, fails: two requests that violate the inequality on
    different axes (on axis 0 only, on axis 2 only) raise one and the same
    exception, which shows the input zooms (1, 1, 1); so no reading of the
    exception gives the offending axis. *)
Lemma mean_error_does_not_name_the_axis :
  run_resample_nifti sample_volume [Some (1 # 2); None; None] Mean true None
  = Raise (AssertionError (MeanOnlyDownsamples [1; 1; 1]))
  /\ run_resample_nifti sample_volume [None; None; Some (1 # 2)] Mean true None
     = Raise (AssertionError (MeanOnlyDownsamples [1; 1; 1]))
  /\ offending_axes [1; 1; 1] [1 # 2; 1; 1] = [0%nat]
  /\ offending_axes [1; 1; 1] [1; 1; 1 # 2] = [2%nat]
  /\ ~ exists axis_of : exn -> nat,
         forall output_zooms e,
           run_resample_nifti sample_volume output_zooms Mean true None = Raise e ->
           mean_error e ->
           In (axis_of e)
              (offending_axes (zooms sample_volume)
                              (substitute_none (zooms sample_volume) output_zooms)).
Proof.
  assert (H0 : run_resample_nifti sample_volume [Some (1 # 2); None; None]
                 Mean true None
               = Raise (AssertionError (MeanOnlyDownsamples [1; 1; 1])))
    by (vm_compute; reflexivity).
  assert (H2 : run_resample_nifti sample_volume [None; None; Some (1 # 2)]
                 Mean true None
               = Raise (AssertionError (MeanOnlyDownsamples [1; 1; 1])))
    by (vm_compute; reflexivity).
  split; [exact H0|]. split; [exact H2|].
  split; [reflexivity|]. split; [reflexivity|].
  intros [axis_of Hax].
  assert (Hme : mean_error (AssertionError (MeanOnlyDownsamples [1; 1; 1])))
    by (now exists [1; 1; 1]).
  pose proof (Hax _ _ H0 Hme) as Ha. pose proof (Hax _ _ H2 Hme) as Hb.
  change (In (axis_of (AssertionError (MeanOnlyDownsamples [1; 1; 1]))) [0%nat]) in Ha.
  change (In (axis_of (AssertionError (MeanOnlyDownsamples [1; 1; 1]))) [2%nat]) in Hb.
  cbn in Ha, Hb. lia.
Qed.

(** C10, as stated, fails: on the fourth axis of [sample_series] the input
    zoom is 0 and the zoom is kept, so 4/3 * outputZoom >= inputZoom holds
    and the axis is not left unchanged (0 > 2/3 * 0 is false); line 78 then
    divides by the input zoom 0. *)
Lemma zero_input_zoom_divides_by_zero :
  forallb (fun p => mean_supported (fst p) (snd p))
          (combine (substitute_none (zooms sample_series) [None; None; None; None])
                   (zooms sample_series)) = true
  /\ Qlt_bool ((2 # 3) * 0) 0 = false
  /\ mean_zoom_factor 0 0 = Raise ZeroDivisionError
  /\ run_resample_nifti sample_series [None; None; None; None] Mean true None
     = Raise ZeroDivisionError.
Proof. repeat split; vm_compute; reflexivity. Qed.

(** A 2x4x2 result against a 3x1x3 reference: cropped along axis 1, padded
    along axes 0 and 2.  Index (1, 0, 1) lies below both extents on every
    axis and holds the computed value 17; index (2, 0, 0) lies beyond the
    computed extent 2 of axis 0 and holds zero. *)
Lemma reference_grid_is_cropped_or_padded_witness :
  exists out,
    run_resample_nifti sample_volume [Some 2; Some 1; Some 1] (IntOrder 1) true
                       (Some sample_reference) = Ok out
    /\ shape (dataobj out) = [3; 1; 3]%nat
    /\ item 0 (dataobj out) [1; 0; 1]%nat = 17
    /\ item 0 (dataobj out) [2; 0; 0]%nat = 0
    /\ affine out = affine sample_reference.
Proof.
  eexists.
  assert (Hrun : run_resample_nifti sample_volume [Some 2; Some 1; Some 1]
                   (IntOrder 1) true (Some sample_reference)
                 = Ok {| dataobj := {| shape := [3; 1; 3]%nat;
                                       data := [0; 1; 0; 16; 17; 0; 0; 0; 0] |};
                         affine := diagonal_affine 2 1 1;
                         zooms := [2; 1; 1] |})
    by (vm_compute; reflexivity).
  split; [exact Hrun|].
  destruct (reference_grid_is_cropped_or_padded nearest_zoom no_filter block_mean
              no_broadcast sample_volume [Some 2; Some 1; Some 1] (IntOrder 1) true
              sample_reference _
              {| shape := [2; 4; 2]%nat;
                 data := [0; 1; 2; 3; 4; 5; 6; 7; 16; 17; 18; 19; 20; 21; 22; 23] |}
              [1 # 2; 1; 1] [2; 1; 1] ltac:(vm_compute; reflexivity) eq_refl Hrun)
    as [_ [Hshape [Hitems Haff]]].
  split; [exact Hshape|].
  split.
  - apply (proj1 (Hitems [1; 0; 1]%nat ltac:(repeat constructor))).
    intros [|[|[|k]]] Hk; cbn in *; lia.
  - split; [|exact Haff].
    apply (proj2 (Hitems [2; 0; 0]%nat ltac:(repeat constructor))).
    intros Hb. specialize (Hb 0%nat ltac:(cbn; lia)). cbn in Hb. lia.
Defined.

(** Zoom factor 1/2 along axis 0: the first diagonal entry doubles, the
    bottom-right entry stays 1. *)
Lemma affine_block_is_rescaled_witness :
  exists out,
    run_resample_nifti sample_volume [Some 2; Some 1; Some 1] (IntOrder 1) true None
    = Ok out
    /\ item 0 (affine out) [0; 0]%nat = 1 / (1 / 2)
    /\ item 0 (affine out) [3; 3]%nat = 1.
Proof.
  eexists.
  assert (Hrun : run_resample_nifti sample_volume [Some 2; Some 1; Some 1]
                   (IntOrder 1) true None
                 = Ok {| dataobj := {| shape := [2; 4; 2]%nat;
                                       data := [0; 1; 2; 3; 4; 5; 6; 7;
                                                16; 17; 18; 19; 20; 21; 22; 23] |};
                         affine := diagonal_affine 2 1 1;
                         zooms := [2; 1; 1] |})
    by (vm_compute; reflexivity).
  split; [exact Hrun|].
  destruct (affine_block_is_rescaled nearest_zoom no_filter block_mean no_broadcast
              sample_volume [Some 2; Some 1; Some 1] (IntOrder 1) true _
              eq_refl eq_refl (le_n 3) Hrun)
    as [c [zfs [_ [Hzf [_ Hitems]]]]].
  pose proof (Hzf 0%nat ltac:(lia)) as Hz0. cbn in Hz0.
  pose proof (Hitems 0%nat 0%nat ltac:(lia) ltac:(lia)) as H00.
  pose proof (Hitems 3%nat 3%nat ltac:(lia) ltac:(lia)) as H33.
  rewrite Hz0 in H00. split; [exact H00 | exact H33].
Defined.



(** *** Further properties of the resampler *)

(** [round] gives a nearest integer. *)
Lemma py_round_nearest (x : Q) (k : Z) :
  Qabs (x - inject_Z (py_round x)) <= Qabs (x - inject_Z k).
Proof.
  pose proof (Qfloor_le x) as Hlo. pose proof (Qlt_floor x) as Hhi.
  rewrite inject_Z_plus in Hhi. change (inject_Z 1) with 1 in Hhi.
  set (f := Qfloor x) in *.
  assert (Hk : (k <= f)%Z \/ (f + 1 <= k)%Z) by lia.
  assert (HkQ : inject_Z k <= inject_Z f \/ inject_Z f + 1 <= inject_Z k).
  { destruct Hk as [Hk|Hk]; [left | right].
    - now rewrite <- Zle_Qle.
    - change 1 with (inject_Z 1). rewrite <- inject_Z_plus. now rewrite <- Zle_Qle. }
  assert (Hfar : forall r, r <= x - inject_Z f -> r <= 1 - (x - inject_Z f) ->
                           r <= Qabs (x - inject_Z k)).
  { intros r H1 H2. destruct HkQ as [H|H].
    - rewrite Qabs_pos by lra. lra.
    - rewrite Qabs_neg by lra. lra. }
  unfold py_round. fold f.
  destruct (Qcompare (x - inject_Z f) (1 # 2)) eqn:C.
  - apply Qeq_alt in C.
    assert (E : Qabs (x - inject_Z (if Z.even f then f else (f + 1)%Z)) == 1 # 2).
    { destruct (Z.even f).
      - rewrite Qabs_pos by lra. exact C.
      - rewrite inject_Z_plus. change (inject_Z 1) with 1. rewrite Qabs_neg by lra. lra. }
    rewrite E. apply Hfar; lra.
  - apply Qlt_alt in C. rewrite Qabs_pos by lra. apply Hfar; lra.
  - apply Qgt_alt in C. rewrite inject_Z_plus. change (inject_Z 1) with 1.
    rewrite Qabs_neg by lra. apply Hfar; lra.
Qed.


Lemma Qabs_scale (c x : Q) : 0 <= c -> Qabs (c * x) == c * Qabs x.
Proof. intros Hc. now rewrite Qabs_Qmult, (Qabs_pos c Hc). Qed.

(** The zoom that mean mode settles on is a nearest positive multiple of
    the input zoom, for a positive input zoom that the assertion of line 77
    lets through. *)
Lemma mean_axis_nearest_multiple (input_zoom output_zoom zf stored : Q) :
  0 < input_zoom ->
  mean_supported output_zoom input_zoom = true ->
  mean_zoom_factor input_zoom output_zoom = Ok zf ->
  py_div input_zoom zf = Ok stored ->
  exists k : Z,
    (1 <= k)%Z
    /\ stored == input_zoom * inject_Z k
    /\ input_zoom <= stored
    /\ forall m : Z, (1 <= m)%Z ->
         Qabs (stored - output_zoom)
         <= Qabs (input_zoom * inject_Z m - output_zoom).
Proof.
  intros Hpos Hsup Hzf Hst.
  unfold mean_supported in Hsup. apply Qle_bool_iff in Hsup.
  apply mean_zoom_factor_ok_inv in Hzf as [Hzf _].
  apply py_div_ok_inv in Hst as [_ Hst].
  destruct (Qlt_bool ((2 # 3) * output_zoom) input_zoom) eqn:Hch.
  - apply Qlt_bool_iff in Hch. subst zf. rewrite Qdiv_1_r_eq in Hst. subst stored.
    exists 1%Z. split; [lia|]. split; [change (inject_Z 1) with 1; ring|].
    split; [lra|].
    intros m Hm. destruct (Z.eq_dec m 1) as [->|Hm1].
    + change (inject_Z 1) with 1.
      assert (E : input_zoom * 1 - output_zoom == input_zoom - output_zoom) by ring.
      rewrite E. lra.
    + assert (H2 : 2 <= inject_Z m)
        by (change 2 with (inject_Z 2); rewrite <- Zle_Qle; lia).
      set (M := inject_Z m) in *.
      assert (HB : 0 <= input_zoom * M - output_zoom) by nra.
      rewrite (Qabs_pos _ HB). apply Qabs_Qle_condition. split; nra.
  - destruct (changed_axis_ratio _ _ Hpos Hch) as [_ Hn].
    set (n := py_round (output_zoom / input_zoom)) in *.
    assert (Hn0 : ~ inject_Z n == 0) by (apply inject_Z_nonzero; lia).
    assert (Hiz : ~ input_zoom == 0) by lra.
    assert (E : stored == input_zoom * inject_Z n).
    { rewrite Hst, Hzf. field. exact Hn0. }
    exists n. split; [lia|]. split; [exact E|].
    assert (HN : 2 <= inject_Z n)
      by (change 2 with (inject_Z 2); rewrite <- Zle_Qle; lia).
    split; [rewrite E; nra|].
    intros m Hm.
    pose proof (py_round_nearest (output_zoom / input_zoom) m) as Hnear.
    fold n in Hnear.
    assert (E1 : stored - output_zoom
                 == input_zoom * - (output_zoom / input_zoom - inject_Z n))
      by (rewrite E; field; exact Hiz).
    assert (E2 : input_zoom * inject_Z m - output_zoom
                 == input_zoom * - (output_zoom / input_zoom - inject_Z m))
      by (field; exact Hiz).
    rewrite E1, E2, !Qabs_scale, !Qabs_opp by lra.
    apply Qmult_le_l; [exact Hpos | exact Hnear].
Qed.

(** Lines 84 and 86 on one axis with positive zooms: the number under the
    square root is never negative; it is 0 unless the axis is downsampled,
    and then it is ((outputZoom / inputZoom)^2 - 1) / 12. *)
Lemma sigma_axis (input_zoom output_zoom : Q) :
  0 < input_zoom -> 0 < output_zoom ->
  exists zf s,
    py_div input_zoom output_zoom = Ok zf
    /\ sigma_squared zf = Ok s
    /\ 0 <= s
    /\ (output_zoom <= input_zoom -> s = 0)
    /\ (input_zoom < output_zoom ->
        0 < s
        /\ s == ((output_zoom / input_zoom) * (output_zoom / input_zoom) - 1) / 12).
Proof.
  intros Hi Ho.
  assert (Hin : ~ input_zoom == 0) by lra.
  assert (Hon : ~ output_zoom == 0) by lra.
  assert (Hzf : 0 < input_zoom / output_zoom)
    by (apply Qlt_shift_div_l; [exact Ho | lra]).
  exists (input_zoom / output_zoom).
  rewrite (py_div_ok _ _ Hon). unfold sigma_squared.
  destruct (Qlt_bool (input_zoom / output_zoom) 1) eqn:Hlt.
  - apply Qlt_bool_iff in Hlt.
    assert (Hio : input_zoom < output_zoom).
    { apply Qnot_le_lt. intros Hle. apply (Qlt_not_le _ _ Hlt).
      apply Qle_shift_div_l; [exact Ho | lra]. }
    assert (Hz : ~ input_zoom / output_zoom == 0) by lra.
    rewrite (py_div_ok _ _ Hz). cbn [Py.bind].
    set (w := 1 / (input_zoom / output_zoom)).
    assert (Ew : w == output_zoom / input_zoom) by (unfold w; field; split; assumption).
    assert (Hw : 1 < output_zoom / input_zoom)
      by (apply Qlt_shift_div_l; [exact Hi | lra]).
    assert (Hs : 0 < (w * w - 1) / 12).
    { apply Qlt_shift_div_l; [reflexivity|]. rewrite Ew. nra. }
    exists ((w * w - 1) / 12). split; [reflexivity|]. split; [reflexivity|].
    split; [lra|]. split; [intros Hle; lra|].
    intros _. split; [exact Hs|]. now rewrite Ew.
  - apply Qlt_bool_false_iff in Hlt.
    exists 0. split; [reflexivity|]. split; [reflexivity|].
    split; [lra|]. split; [reflexivity|].
    intros Hio. exfalso. apply (Qlt_not_le _ _ Hio).
    assert (E : input_zoom == input_zoom / output_zoom * output_zoom)
      by (field; exact Hon).
    rewrite E. nra.
Qed.

(** *** Consistency of the result *)

Lemma isclose_sqrt_exact (a s : Q) : 0 <= a -> s == a * a -> isclose_sqrt a s = true.
Proof.
  intros Ha Hs. unfold isclose_sqrt.
  rewrite !andb_true_iff, orb_true_iff, !Qle_bool_iff.
  unfold atol, rtol.
  repeat split.
  - destruct (Qlt_le_dec a (1 # 100000000)) as [Hlt|Hge]; [left; lra | right].
    nra.
  - lra.
  - nra.
Qed.

Lemma firstn_3_nth (l : list Q) :
  (3 <= length l)%nat -> firstn 3 l = [nth 0 l 0; nth 1 l 0; nth 2 l 0].
Proof.
  destruct l as [|a [|b [|c l]]]; cbn; intros H; try lia. reflexivity.
Qed.

Lemma spatial_sqnorms_items (aff : ndarray Q) :
  spatial_sqnorms aff
  = [ item 0 aff [0; 0]%nat * item 0 aff [0; 0]%nat
      + item 0 aff [1; 0]%nat * item 0 aff [1; 0]%nat
      + item 0 aff [2; 0]%nat * item 0 aff [2; 0]%nat;
      item 0 aff [0; 1]%nat * item 0 aff [0; 1]%nat
      + item 0 aff [1; 1]%nat * item 0 aff [1; 1]%nat
      + item 0 aff [2; 1]%nat * item 0 aff [2; 1]%nat;
      item 0 aff [0; 2]%nat * item 0 aff [0; 2]%nat
      + item 0 aff [1; 2]%nat * item 0 aff [1; 2]%nat
      + item 0 aff [2; 2]%nat * item 0 aff [2; 2]%nat ].
Proof. reflexivity. Qed.

Lemma new_image_with_zooms_ok_nonneg (array aff : ndarray Q) (zs : list Q)
    (out : Nifti1Image) :
  new_image_with_zooms array aff zs = Ok out -> Forall (fun z => 0 <= z) zs.
Proof.
  unfold new_image_with_zooms. destruct (negb _); [discriminate|].
  destruct (existsb (fun z => Qlt_bool z 0) zs) eqn:E; [discriminate|].
  intros _. apply Forall_forall. intros z Hz.
  apply Qlt_bool_false_iff.
  destruct (Qlt_bool z 0) eqn:Ez; [|reflexivity].
  assert (existsb (fun z => Qlt_bool z 0) zs = true)
    by (apply existsb_exists; eauto).
  congruence.
Qed.

Lemma divide_spatial_block_ok_nonzero (aff aff' : ndarray Q) (factors : list Q) :
  divide_spatial_block aff factors = Ok aff' -> Forall (fun z => ~ z == 0) factors.
Proof.
  unfold divide_spatial_block.
  destruct (existsb (fun z => Qeq_bool z 0) factors) eqn:E; [discriminate|].
  intros _. apply Forall_forall. intros z Hz Hz0.
  apply Qeq_bool_iff in Hz0.
  assert (existsb (fun z => Qeq_bool z 0) factors = true)
    by (apply existsb_exists; eauto).
  congruence.
Qed.

(** *** A reference grid of the same shape *)

Lemma overlap_same_shape (a b : ndarray Q) :
  shape a = shape b -> overlap a b = shape b.
Proof.
  unfold overlap. intros ->. induction (shape b) as [|n s IH]; cbn.
  - reflexivity.
  - now rewrite Nat.min_id, IH.
Qed.

(** Pasting into zeros of the same shape reproduces the array. *)
Lemma paste_overlap_same_shape (source reference : ndarray Q) :
  shape source = shape reference -> well_formed source ->
  paste_overlap source (zeros_like reference) = source.
Proof.
  intros Hs Hwf. unfold paste_overlap.
  change (shape (zeros_like reference)) with (shape reference).
  destruct source as [s d]. cbn [shape] in Hs. subst s. f_equal.
  set (a := {| shape := shape reference; data := d |}) in *.
  transitivity (map (item 0 a) (all_indices (shape reference)));
    [|exact (tabulate_items 0 a Hwf)].
  apply map_ext_in. intros idx Hin.
  rewrite (overlap_same_shape a (zeros_like reference)) by reflexivity.
  change (shape (zeros_like reference)) with (shape reference).
  apply all_indices_in_bounds, in_boundsb_iff in Hin. now rewrite Hin.
Qed.

Section MoreProperties.

Variable zoom : ndarray Q -> list Q -> Z -> ext (ndarray Q).
Variable gaussian_filter : ndarray Q -> list Q -> ext (ndarray Q).
Variable downsample_array : ndarray Q -> list Z -> ext (ndarray Q).
Variable assign_leading_slices : ndarray Q -> ndarray Q -> ext (ndarray Q).

Local Abbreviation resampled' :=
  (resampled zoom gaussian_filter downsample_array).
Local Abbreviation resample_nifti' :=
  (resample_nifti zoom gaussian_filter downsample_array assign_leading_slices).

(** X9: In spline mode the zooms stored in the result are the requested ones,
    with the input zoom wherever [None] was given; the factor handed to
    [zoom] for an axis is inputZoom / outputZoom. *)
Theorem spline_mode_stores_requested_zooms (input_nii : Nifti1Image)
    (output_zooms : list (option Q)) (n : Z) (prefilter : bool)
    (reference_nii : option Nifti1Image) (out : Nifti1Image) :
  resample_nifti' input_nii output_zooms (IntOrder n) prefilter reference_nii
  = Ok out ->
  length (zooms out) = length (zooms input_nii)
  /\ exists output_array zoom_factors,
       resampled' (dataobj input_nii) (zooms input_nii)
                  (substitute_none (zooms input_nii) output_zooms)
                  (IntOrder n) prefilter
       = Ok (output_array, zoom_factors, zooms out)
       /\ forall i, (i < length (zooms input_nii))%nat ->
            nth i (zooms out) 0
            = match nth i output_zooms None with
              | None => nth i (zooms input_nii) 0
              | Some z => z
              end
            /\ nth i zoom_factors 0 = nth i (zooms input_nii) 0 / nth i (zooms out) 0.
Proof.
  intros H. apply resample_nifti_ok_inv in H as [Hlen [_ [c [zfs [Hres _]]]]].
  pose proof (length_substitute_none _ _ Hlen) as Hlsub.
  pose proof Hres as Hres'.
  apply resampled_spline_ok_inv in Hres' as [Hz [_ Hax]]; [|exact Hlsub].
  split; [now rewrite Hz|].
  exists c, zfs. split; [exact Hres|].
  intros i Hi. rewrite Hz. split.
  - now apply nth_substitute_none.
  - pose proof (Hax i Hi) as Hzf. now apply py_div_ok_inv in Hzf as [_ Hzf].
Qed.

(** The assertion of line 77 has passed on every axis of a mean-mode call
    that returns. *)
Lemma resampled_mean_supported (input_array : ndarray Q)
    (input_zooms output_zooms : list Q) (prefilter : bool)
    (r : ndarray Q * list Q * list Q) (i : nat) :
  length output_zooms = length input_zooms ->
  resampled' input_array input_zooms output_zooms Mean prefilter = Ok r ->
  (i < length input_zooms)%nat ->
  mean_supported (nth i output_zooms 0) (nth i input_zooms 0) = true.
Proof.
  intros Hlen Hres Hi. unfold resampled in Hres.
  apply bind_ok_inv in Hres as [u [Hsup _]]. apply assert_ok_inv in Hsup.
  rewrite forallb_forall in Hsup.
  specialize (Hsup (nth i (combine output_zooms input_zooms) (0, 0))).
  rewrite combine_nth in Hsup by exact Hlen. apply Hsup.
  rewrite <- combine_nth by exact Hlen. apply nth_In.
  rewrite length_combine, Hlen, Nat.min_id. exact Hi.
Qed.

(** X11: In mean mode on positive input zooms, the zoom stored for an axis is a
    positive integer multiple of the input zoom (so never smaller than it),
    and among all such multiples it is one nearest to the requested zoom. *)
Theorem mean_mode_picks_nearest_multiple (input_nii : Nifti1Image)
    (output_zooms : list (option Q)) (prefilter : bool)
    (reference_nii : option Nifti1Image) (out : Nifti1Image) (i : nat) :
  Forall (fun z => 0 < z) (zooms input_nii) ->
  resample_nifti' input_nii output_zooms Mean prefilter reference_nii = Ok out ->
  (i < length (zooms input_nii))%nat ->
  let input_zoom := nth i (zooms input_nii) 0 in
  let requested := match nth i output_zooms None with
                   | None => input_zoom
                   | Some z => z
                   end in
  let stored := nth i (zooms out) 0 in
  exists k : Z,
    (1 <= k)%Z
    /\ stored == input_zoom * inject_Z k
    /\ input_zoom <= stored
    /\ forall m : Z, (1 <= m)%Z ->
         Qabs (stored - requested) <= Qabs (input_zoom * inject_Z m - requested).
Proof.
  intros Hpos H Hi. cbn zeta.
  apply resample_nifti_ok_inv in H as [Hlen [_ [c [zfs [Hres _]]]]].
  pose proof (length_substitute_none _ _ Hlen) as Hlsub.
  pose proof (resampled_mean_supported _ _ _ _ _ i Hlsub Hres Hi) as Hsup.
  apply resampled_mean_ok_inv in Hres as [_ [_ Hax]]; [|exact Hlsub].
  destruct (Hax i Hi) as [Hzf Hst].
  rewrite <- (nth_substitute_none _ _ i Hlen).
  apply (mean_axis_nearest_multiple _ _ _ _
           (proj1 (Forall_forall _ _) Hpos _ (nth_In _ _ Hi)) Hsup Hzf Hst).
Qed.

(** X10: In spline mode with prefilter, on positive input and output zooms: no
    division of lines 84-86 has a zero divisor, the number under each square
    root is non-negative, the sigma of an axis that is not downsampled is 0,
    and the sigma of a downsampled axis is the square root of
    ((outputZoom / inputZoom)^2 - 1) / 12; lines 84-88 then amount to the
    two calls [gaussian_filter] and [zoom]. *)
Theorem prefilter_smooths_downsampled_axes_only (input_array : ndarray Q)
    (input_zooms output_zooms : list Q) (n : Z) :
  Forall (fun z => 0 < z) input_zooms ->
  Forall (fun z => 0 < z) output_zooms ->
  exists zoom_factors sigmas2,
    comprehension (fun p => py_div (fst p) (snd p))
                  (combine input_zooms output_zooms) = Ok zoom_factors
    /\ comprehension sigma_squared zoom_factors = Ok sigmas2
    /\ Forall2 smoothing_of (combine input_zooms output_zooms) sigmas2
    /\ resampled' input_array input_zooms output_zooms (IntOrder n) true
       = (smoothed <- call (gaussian_filter input_array sigmas2) ;;
          output_array <- call (zoom smoothed zoom_factors n) ;;
          Ok (output_array, zoom_factors, output_zooms))%py.
Proof.
  intros Hin Hout.
  assert (H : exists zoom_factors sigmas2,
             comprehension (fun p => py_div (fst p) (snd p))
                           (combine input_zooms output_zooms) = Ok zoom_factors
             /\ comprehension sigma_squared zoom_factors = Ok sigmas2
             /\ Forall2 smoothing_of (combine input_zooms output_zooms) sigmas2).
  { revert output_zooms Hout.
    induction Hin as [|iz ins Hiz Hins IH]; intros outs Hout.
    - exists [], []. cbn. repeat split; constructor.
    - destruct Hout as [|oz outs Hoz Houts].
      + exists [], []. cbn. repeat split; constructor.
      + destruct (sigma_axis iz oz Hiz Hoz) as [zf [s [Hzf [Hs Hrel]]]].
        destruct (IH outs Houts) as [zfs [ss [Hzfs [Hss Hrels]]]].
        exists (zf :: zfs), (s :: ss).
        cbn [combine comprehension fst snd].
        rewrite Hzf, Hzfs, Hs, Hss. repeat split.
        constructor; [exact Hrel | exact Hrels]. }
  destruct H as [zfs [ss [Hzfs [Hss Hrels]]]].
  exists zfs, ss. repeat split; try assumption.
  unfold resampled. rewrite Hzfs. cbn [Py.bind]. rewrite Hss. cbn [Py.bind].
  reflexivity.
Qed.

(** An axis for which [None] is given, with a positive input zoom: its zoom
    factor is 1 and its zoom is kept, in mean mode and in spline mode. *)
Lemma kept_axis (input_array : ndarray Q) (input_zooms : list Q)
    (output_zooms : list (option Q)) (order : order_arg) (prefilter : bool)
    (output_array : ndarray Q) (zoom_factors output_zooms' : list Q) (i : nat) :
  length input_zooms = length output_zooms ->
  resampled' input_array input_zooms (substitute_none input_zooms output_zooms)
             order prefilter
  = Ok (output_array, zoom_factors, output_zooms') ->
  (i < length input_zooms)%nat ->
  nth i output_zooms None = None ->
  0 < nth i input_zooms 0 ->
  length zoom_factors = length input_zooms
  /\ nth i zoom_factors 0 == 1
  /\ nth i output_zooms' 0 = nth i input_zooms 0.
Proof.
  intros Hlen Hres Hi Hnone Hpos.
  pose proof (length_substitute_none _ _ Hlen) as Hlsub.
  pose proof (nth_substitute_none _ _ i Hlen) as Hsub. rewrite Hnone in Hsub.
  set (iz := nth i input_zooms 0) in *.
  destruct order as [|n|].
  - apply resampled_mean_ok_inv in Hres as [Hl [_ Hax]]; [|exact Hlsub].
    destruct (Hax i Hi) as [Hzf Hst]. rewrite Hsub in Hzf. fold iz in Hzf, Hst.
    apply mean_zoom_factor_ok_inv in Hzf as [Hzf _].
    assert (Hu : Qlt_bool ((2 # 3) * iz) iz = true) by (apply Qlt_bool_iff; lra).
    rewrite Hu in Hzf. rewrite Hzf in *.
    apply py_div_ok_inv in Hst as [_ Hst]. rewrite Qdiv_1_r_eq in Hst.
    split; [exact Hl|]. split; [reflexivity | exact Hst].
  - apply resampled_spline_ok_inv in Hres as [Hz [Hl Hax]]; [|exact Hlsub].
    pose proof (Hax i Hi) as Hzf. rewrite Hsub in Hzf. fold iz in Hzf.
    apply py_div_ok_inv in Hzf as [Hnz Hzf].
    split; [exact Hl|]. split.
    + rewrite Hzf. field. exact Hnz.
    + now rewrite Hz.
  - discriminate Hres.
Qed.

(** X13: Without a reference volume, a spatial axis for which [None] is given
    (and whose input zoom is positive) comes through unchanged: the result
    has the same zoom for it and, up to the representation of the
    fractions, the same column of the 4x4 affine. *)
Theorem none_keeps_the_axis (input_nii : Nifti1Image)
    (output_zooms : list (option Q)) (order : order_arg) (prefilter : bool)
    (out : Nifti1Image) (j : nat) :
  shape (affine input_nii) = [4; 4]%nat ->
  well_formed (affine input_nii) ->
  (3 <= length (zooms input_nii))%nat ->
  (j < 3)%nat ->
  nth j output_zooms None = None ->
  0 < nth j (zooms input_nii) 0 ->
  resample_nifti' input_nii output_zooms order prefilter None = Ok out ->
  nth j (zooms out) 0 = nth j (zooms input_nii) 0
  /\ forall i, (i < 4)%nat ->
       item 0 (affine out) [i; j] == item 0 (affine input_nii) [i; j].
Proof.
  intros Hs Hwf H3 Hj Hnone Hpos H.
  apply resample_nifti_ok_inv in H as [Hlen [_ [c [zfs [Hres [_ Haff]]]]]].
  destruct (kept_axis _ _ _ _ _ _ _ _ j Hlen Hres ltac:(lia) Hnone Hpos)
    as [Hl [Hone Hz]].
  split; [exact Hz|].
  unfold rescale_affine in Haff.
  destruct zfs as [|z0 [|z1 [|z2 zfs]]]; cbn in Hl; try lia.
  cbn [firstn] in Haff.
  destruct (item_divide_spatial_block _ _ _ Hs Hwf Haff) as [_ Hitems].
  intros i Hi. rewrite (Hitems i j Hi ltac:(lia)).
  destruct ((i <? 3) && (j <? 3))%nat; [|reflexivity].
  assert (E : nth j [z0; z1; z2] 0 == 1)
    by (destruct j as [|[|[|j]]]; try lia; exact Hone).
  rewrite E. field.
Qed.

(** The zooms of a result are not negative. *)
Lemma resample_nifti_ok_zooms_nonneg (input_nii : Nifti1Image)
    (output_zooms : list (option Q)) (order : order_arg) (prefilter : bool)
    (reference_nii : option Nifti1Image) (out : Nifti1Image) :
  resample_nifti' input_nii output_zooms order prefilter reference_nii = Ok out ->
  Forall (fun z => 0 <= z) (zooms out).
Proof.
  unfold resample_nifti. intros H.
  apply bind_ok_inv in H as [u [_ H]].
  apply bind_ok_inv in H as [consistent [_ H]].
  apply bind_ok_inv in H as [u' [_ H]].
  apply bind_ok_inv in H as [[[c zfs] zs] [_ H]].
  apply bind_ok_inv in H as [[a aff] [_ H]].
  pose proof (new_image_with_zooms_ok_nonneg _ _ _ _ H) as Hnn.
  apply new_image_with_zooms_ok_inv in H as [_ [_ [Hz _]]]. now rewrite Hz.
Qed.

(** The zoom stored for an axis is the input zoom over the zoom factor, in
    both modes, when the factor is not zero. *)
Lemma stored_zoom_is_quotient (input_array : ndarray Q)
    (input_zooms output_zooms : list Q) (order : order_arg) (prefilter : bool)
    (output_array : ndarray Q) (zoom_factors output_zooms' : list Q) (i : nat) :
  length output_zooms = length input_zooms ->
  resampled' input_array input_zooms output_zooms order prefilter
  = Ok (output_array, zoom_factors, output_zooms') ->
  (i < length input_zooms)%nat ->
  ~ nth i zoom_factors 0 == 0 ->
  length zoom_factors = length input_zooms
  /\ length output_zooms' = length input_zooms
  /\ nth i output_zooms' 0 == nth i input_zooms 0 / nth i zoom_factors 0.
Proof.
  intros Hlen Hres Hi Hnz. destruct order as [|n|].
  - apply resampled_mean_ok_inv in Hres as [Hl [Hl' Hax]]; [|exact Hlen].
    destruct (Hax i Hi) as [_ Hst]. apply py_div_ok_inv in Hst as [_ Hst].
    split; [exact Hl|]. split; [exact Hl'|]. now rewrite Hst.
  - apply resampled_spline_ok_inv in Hres as [Hz [Hl Hax]]; [|exact Hlen].
    pose proof (Hax i Hi) as Hzf. apply py_div_ok_inv in Hzf as [Hoz Hzf].
    split; [exact Hl|]. split; [now rewrite Hz|].
    rewrite Hz. rewrite Hzf in *.
    assert (Hiz : ~ nth i input_zooms 0 == 0).
    { intros E. apply Hnz. rewrite E. field. exact Hoz. }
    field. split; assumption.
  - discriminate Hres.
Qed.

(** X14: Without a reference volume, a volume whose spatial zooms are exactly
    the norms of its affine's columns gives a result with the same
    property; the result therefore passes the check of line 73 and can be
    resampled again. *)
Theorem result_is_consistent (input_nii : Nifti1Image)
    (output_zooms : list (option Q)) (order : order_arg) (prefilter : bool)
    (out : Nifti1Image) :
  shape (affine input_nii) = [4; 4]%nat ->
  well_formed (affine input_nii) ->
  (3 <= length (zooms input_nii))%nat ->
  exactly_consistent input_nii ->
  resample_nifti' input_nii output_zooms order prefilter None = Ok out ->
  exactly_consistent out /\ consistent out.
Proof.
  intros Hs Hwf H3 Hex H.
  pose proof (resample_nifti_ok_zooms_nonneg _ _ _ _ _ _ H) as Hnn.
  apply resample_nifti_ok_inv in H as [Hlen [_ [c [zfs [Hres [_ Haff]]]]]].
  pose proof (length_substitute_none _ _ Hlen) as Hlsub.
  unfold rescale_affine in Haff.
  assert (Hdiv : exists f0 f1 f2,
             divide_spatial_block (affine input_nii) [f0; f1; f2] = Ok (affine out)
             /\ forall j, (j < 3)%nat ->
                  nth j [f0; f1; f2] 0 = nth j zfs 0 \/ (length zfs < 3)%nat).
  { destruct zfs as [|z0 [|z1 [|z2 zfs]]]; cbn [firstn] in Haff; try discriminate.
    - exists z0, z0, z0. split; [exact Haff|]. intros j Hj. right. cbn. lia.
    - exists z0, z1, z2. split; [exact Haff|]. intros j Hj. left.
      destruct j as [|[|[|j]]]; try lia; reflexivity. }
  destruct Hdiv as [f0 [f1 [f2 [Hdiv Hf]]]].
  pose proof (divide_spatial_block_ok_nonzero _ _ _ Hdiv) as Hnz.
  destruct (item_divide_spatial_block _ _ _ Hs Hwf Hdiv) as [_ Hitems].
  assert (Hax : forall j, (j < 3)%nat ->
            ~ nth j [f0; f1; f2] 0 == 0
            /\ nth j (zooms out) 0
               == nth j (zooms input_nii) 0 / nth j [f0; f1; f2] 0
            /\ 0 <= nth j (zooms out) 0).
  { intros j Hj.
    assert (Hnzj : ~ nth j [f0; f1; f2] 0 == 0).
    { rewrite Forall_forall in Hnz. apply Hnz. apply nth_In. cbn. lia. }
    destruct (stored_zoom_is_quotient _ _ _ _ _ _ _ _ j Hlsub Hres ltac:(lia))
      as [Hl [Hl' Hq]].
    - destruct (Hf j Hj) as [E|E]; [now rewrite <- E|].
      destruct order; [ apply resampled_mean_ok_inv in Hres as [Hl _]
                      | apply resampled_spline_ok_inv in Hres as [_ [Hl _]]
                      | discriminate Hres ]; try exact Hlsub; lia.
    - destruct (Hf j Hj) as [E|E]; [|lia].
      split; [exact Hnzj|]. split; [now rewrite E|].
      rewrite Forall_forall in Hnn. apply Hnn. apply nth_In. lia. }
  assert (Hlo : (3 <= length (zooms out))%nat).
  { destruct order; [ apply resampled_mean_ok_inv in Hres as [_ [Hl _]]
                    | apply resampled_spline_ok_inv in Hres as [Hl _]
                    | discriminate Hres ]; try exact Hlsub.
    - lia.
    - rewrite Hl. lia. }
  unfold exactly_consistent in Hex.
  rewrite (firstn_3_nth _ H3), spatial_sqnorms_items in Hex.
  inversion Hex as [|? ? ? ? E0 Hex1]; subst.
  inversion Hex1 as [|? ? ? ? E1 Hex2]; subst.
  inversion Hex2 as [|? ? ? ? E2 _]; subst.
  destruct (Hax 0%nat ltac:(lia)) as [N0 [Q0 P0]].
  destruct (Hax 1%nat ltac:(lia)) as [N1 [Q1 P1]].
  destruct (Hax 2%nat ltac:(lia)) as [N2 [Q2 P2]].
  cbn [nth] in N0, N1, N2, Q0, Q1, Q2.
  assert (Hout : exactly_consistent out).
  { unfold exactly_consistent.
    rewrite (firstn_3_nth _ Hlo), spatial_sqnorms_items.
    rewrite !Hitems by lia. cbn [Nat.ltb Nat.leb andb nth].
    repeat constructor.
    - rewrite Q0.
      transitivity ((item 0 (affine input_nii) [0; 0]%nat * item 0 (affine input_nii) [0; 0]%nat
                     + item 0 (affine input_nii) [1; 0]%nat * item 0 (affine input_nii) [1; 0]%nat
                     + item 0 (affine input_nii) [2; 0]%nat * item 0 (affine input_nii) [2; 0]%nat)
                    / (f0 * f0)).
      + field. exact N0.
      + rewrite E0. field. exact N0.
    - rewrite Q1.
      transitivity ((item 0 (affine input_nii) [0; 1]%nat * item 0 (affine input_nii) [0; 1]%nat
                     + item 0 (affine input_nii) [1; 1]%nat * item 0 (affine input_nii) [1; 1]%nat
                     + item 0 (affine input_nii) [2; 1]%nat * item 0 (affine input_nii) [2; 1]%nat)
                    / (f1 * f1)).
      + field. exact N1.
      + rewrite E1. field. exact N1.
    - rewrite Q2.
      transitivity ((item 0 (affine input_nii) [0; 2]%nat * item 0 (affine input_nii) [0; 2]%nat
                     + item 0 (affine input_nii) [1; 2]%nat * item 0 (affine input_nii) [1; 2]%nat
                     + item 0 (affine input_nii) [2; 2]%nat * item 0 (affine input_nii) [2; 2]%nat)
                    / (f2 * f2)).
      + field. exact N2.
      + rewrite E2. field. exact N2. }
  split; [exact Hout|].
  unfold consistent, exactly_consistent in *.
  rewrite (firstn_3_nth _ Hlo), spatial_sqnorms_items in *.
  inversion Hout as [|? ? ? ? F0 Hout1]; subst.
  inversion Hout1 as [|? ? ? ? F1 Hout2]; subst.
  inversion Hout2 as [|? ? ? ? F2 _]; subst.
  unfold np_allclose_with. cbn [broadcast length Nat.eqb combine forallb fst snd].
  rewrite (isclose_sqrt_exact _ _ P0 F0), (isclose_sqrt_exact _ _ P1 F1),
          (isclose_sqrt_exact _ _ P2 F2).
  reflexivity.
Qed.

(** X15: When the reference array has the shape of the resampled array, nothing
    is cropped or padded: the result holds the resampled array as it is,
    under the affine of the reference. *)
Theorem same_shape_reference_keeps_data (input_nii : Nifti1Image)
    (output_zooms : list (option Q)) (order : order_arg) (prefilter : bool)
    (reference out : Nifti1Image)
    (computed : ndarray Q) (zoom_factors computed_zooms : list Q) :
  resampled' (dataobj input_nii) (zooms input_nii)
             (substitute_none (zooms input_nii) output_zooms) order prefilter
  = Ok (computed, zoom_factors, computed_zooms) ->
  shape computed = shape (dataobj reference) ->
  well_formed computed ->
  resample_nifti' input_nii output_zooms order prefilter (Some reference) = Ok out ->
  dataobj out = computed /\ affine out = affine reference.
Proof.
  intros Hres Hshape Hwf H.
  apply resample_nifti_ok_inv in H as [_ [_ [c [zfs [Hres' Hfit]]]]].
  rewrite Hres in Hres'. injection Hres' as <- <- Hz.
  unfold fit_to_reference in Hfit.
  apply bind_ok_inv in Hfit as [same [_ Hfit]].
  apply bind_ok_inv in Hfit as [u [_ Hfit]].
  apply bind_ok_inv in Hfit as [a [Ha Hfit]].
  injection Hfit as Hd Haff.
  change (shape (zeros_like (dataobj reference))) with (shape (dataobj reference)) in Ha.
  rewrite Hshape, Nat.eqb_refl in Ha. injection Ha as Ha.
  rewrite (paste_overlap_same_shape _ _ Hshape Hwf) in Ha.
  split; [congruence | now symmetry].
Qed.

(** X8: The two checks on the arguments come before any other work, whatever
    the order, the prefilter flag and the reference: a request with another
    number of zooms than the volume has axes is turned down with the
    assertion of line 72, and otherwise a volume with at least three axes
    one of whose first three zooms is not close (in numpy's sense) to the
    length of the corresponding column of the affine is turned down with
    the assertion of line 73. *)
Theorem arguments_are_checked_first (input_nii : Nifti1Image)
    (output_zooms : list (option Q)) (order : order_arg) (prefilter : bool)
    (reference_nii : option Nifti1Image) :
  (length (zooms input_nii) <> length output_zooms ->
   resample_nifti' input_nii output_zooms order prefilter reference_nii
   = Raise (AssertionError DimensionsMismatch))
  /\ (length (zooms input_nii) = length output_zooms ->
      (3 <= length (zooms input_nii))%nat ->
      forall j, (j < 3)%nat ->
        ~ zoom_matches_norm (nth j (zooms input_nii) 0)
                            (nth j (spatial_sqnorms (affine input_nii)) 0) ->
        resample_nifti' input_nii output_zooms order prefilter reference_nii
        = Raise (AssertionError InconsistentAffineAndZooms)).
Proof.
  split.
  - intros Hlen. unfold resample_nifti.
    apply Nat.eqb_neq in Hlen. now rewrite Hlen.
  - intros Hlen H3 j Hj Hfar. unfold resample_nifti.
    apply Nat.eqb_eq in Hlen. rewrite Hlen. cbn [assert Py.bind].
    assert (Hc : np_allclose_with isclose_sqrt (firstn 3 (zooms input_nii))
                   (spatial_sqnorms (affine input_nii)) = Ok false).
    { pose proof (spatial_sqnorms_nonneg (affine input_nii)) as Hnn.
      assert (Hj' : isclose_sqrt (nth j (zooms input_nii) 0)
                      (nth j (spatial_sqnorms (affine input_nii)) 0) = false).
      { destruct (isclose_sqrt _ _) eqn:E; [|reflexivity].
        exfalso. apply Hfar. apply isclose_sqrt_spec; [|exact E].
        rewrite Forall_forall in Hnn. apply Hnn. apply nth_In. cbn. lia. }
      rewrite (firstn_3_nth _ H3). rewrite spatial_sqnorms_items in *.
      unfold np_allclose_with.
      cbn [broadcast length Nat.eqb combine forallb fst snd]. f_equal.
      destruct j as [|[|[|j]]]; [| | |lia]; cbn [nth] in Hj'; rewrite Hj';
        repeat match goal with
               | |- context [isclose_sqrt ?a ?b] => destruct (isclose_sqrt a b)
               end; reflexivity. }
    now rewrite Hc.
Qed.

End MoreProperties.

(** *** The further properties on sample volumes *)

(** Requested (3/2, keep, 1/2) on unit voxels. *)
Lemma spline_mode_stores_requested_zooms_witness :
  exists out,
    run_resample_nifti sample_volume [Some (3 # 2); None; Some (1 # 2)]
                       (IntOrder 1) false None = Ok out
    /\ nth 0 (zooms out) 0 = 3 # 2
    /\ nth 1 (zooms out) 0 = 1
    /\ nth 2 (zooms out) 0 = 1 # 2.
Proof.
  destruct (run_resample_nifti sample_volume [Some (3 # 2); None; Some (1 # 2)]
              (IntOrder 1) false None) as [out|e] eqn:Hrun;
    [|vm_compute in Hrun; discriminate].
  exists out. split; [reflexivity|].
  destruct (spline_mode_stores_requested_zooms nearest_zoom no_filter block_mean
              no_broadcast sample_volume _ 1 false None out Hrun)
    as [_ [c [zfs [_ Hax]]]].
  split; [exact (proj1 (Hax 0%nat ltac:(cbn; lia)))|].
  split; [exact (proj1 (Hax 1%nat ltac:(cbn; lia)))
         | exact (proj1 (Hax 2%nat ltac:(cbn; lia)))].
Defined.

(** Unit voxels, requested zoom 8/3 along axis 0: the stored zoom is 3,
    nearer to 8/3 than 2 is. *)
Lemma mean_mode_picks_nearest_multiple_witness :
  exists out (k : Z),
    run_resample_nifti sample_volume [Some (8 # 3); None; None] Mean true None
    = Ok out
    /\ (1 <= k)%Z
    /\ nth 0 (zooms out) 0 == 1 * inject_Z k
    /\ Qabs (nth 0 (zooms out) 0 - (8 # 3)) <= Qabs (1 * inject_Z 2 - (8 # 3)).
Proof.
  destruct (run_resample_nifti sample_volume [Some (8 # 3); None; None]
              Mean true None) as [out|e] eqn:Hrun;
    [|vm_compute in Hrun; discriminate].
  destruct (mean_mode_picks_nearest_multiple nearest_zoom no_filter block_mean
              no_broadcast sample_volume [Some (8 # 3); None; None] true None out
              0%nat ltac:(repeat constructor) Hrun ltac:(cbn; lia))
    as [k [Hk [Hmul [_ Hnear]]]].
  exists out, k. split; [reflexivity|]. split; [exact Hk|].
  split; [exact Hmul | exact (Hnear 2%Z ltac:(lia))].
Defined.

(** Unit voxels resampled to (2, 1, 1/2): only axis 0 is smoothed, with
    sigma^2 = (2^2 - 1) / 12. *)
Lemma prefilter_smooths_downsampled_axes_only_witness :
  exists sigmas2,
    comprehension sigma_squared [1 / 2; 1 / 1; 1 / (1 # 2)] = Ok sigmas2
    /\ Forall2 smoothing_of [(1, 2); (1, 1); (1, 1 # 2)] sigmas2.
Proof.
  destruct (prefilter_smooths_downsampled_axes_only nearest_zoom no_filter
              block_mean (ramp [4; 4; 2]%nat) [1; 1; 1] [2; 1; 1 # 2] 1)
    as [zfs [ss [Hzfs [Hss [Hrel _]]]]].
  - repeat constructor.
  - repeat constructor.
  - exists ss. injection Hzfs as <-. split; [exact Hss | exact Hrel].
Defined.

(** Unit voxels, zoom 2 requested along axis 0 only: axis 1 is kept. *)
Lemma none_keeps_the_axis_witness :
  exists out,
    run_resample_nifti sample_volume [Some 2; None; None] (IntOrder 1) true None
    = Ok out
    /\ nth 1 (zooms out) 0 = 1
    /\ item 0 (affine out) [1; 1]%nat == 1.
Proof.
  destruct (run_resample_nifti sample_volume [Some 2; None; None]
              (IntOrder 1) true None) as [out|e] eqn:Hrun;
    [|vm_compute in Hrun; discriminate].
  destruct (none_keeps_the_axis nearest_zoom no_filter block_mean no_broadcast
              sample_volume [Some 2; None; None] (IntOrder 1) true out 1%nat
              eq_refl eq_refl (le_n 3) ltac:(lia) eq_refl eq_refl Hrun)
    as [Hz Hcol].
  exists out. split; [reflexivity|]. split; [exact Hz|].
  exact (Hcol 1%nat ltac:(lia)).
Defined.

(** The sample volume resampled onto its own grid. *)
Lemma same_shape_reference_keeps_data_witness :
  exists out,
    run_resample_nifti sample_volume [None; None; None] (IntOrder 0) false
                       (Some sample_volume) = Ok out
    /\ dataobj out = ramp [4; 4; 2]%nat
    /\ affine out = affine sample_volume.
Proof.
  destruct (run_resample_nifti sample_volume [None; None; None] (IntOrder 0) false
              (Some sample_volume)) as [out|e] eqn:Hrun;
    [|vm_compute in Hrun; discriminate].
  exists out. split; [reflexivity|].
  apply (same_shape_reference_keeps_data nearest_zoom no_filter block_mean
           no_broadcast sample_volume [None; None; None] (IntOrder 0) false
           sample_volume out (ramp [4; 4; 2]%nat) [1; 1; 1] [1; 1; 1]).
  - vm_compute. reflexivity.
  - reflexivity.
  - reflexivity.
  - exact Hrun.
Defined.

(** Unit voxels on the coordinate axes, downsampled by 2 along axis 0. *)
Lemma result_is_consistent_witness :
  exists out,
    run_resample_nifti sample_volume [Some 2; None; None] Mean true None = Ok out
    /\ exactly_consistent out /\ consistent out.
Proof.
  destruct (run_resample_nifti sample_volume [Some 2; None; None] Mean true None)
    as [out|e] eqn:Hrun; [|vm_compute in Hrun; discriminate].
  exists out. split; [reflexivity|].
  apply (result_is_consistent nearest_zoom no_filter block_mean no_broadcast
           sample_volume [Some 2; None; None] Mean true out).
  - reflexivity.
  - reflexivity.
  - apply le_n.
  - repeat constructor.
  - exact Hrun.
Defined.

(** Two requested zooms for a three-dimensional volume; and a header zoom
    of 2 over a column of length 1. *)
Lemma arguments_are_checked_first_witness :
  run_resample_nifti sample_volume [Some 2; None] (IntOrder 3) true None
  = Raise (AssertionError DimensionsMismatch)
  /\ run_resample_nifti mislabelled_volume [None; None; None] Mean false None
     = Raise (AssertionError InconsistentAffineAndZooms).
Proof.
  split.
  - apply (proj1 (arguments_are_checked_first nearest_zoom no_filter block_mean
                    no_broadcast sample_volume [Some 2; None] (IntOrder 3) true None)).
    cbn. discriminate.
  - apply (proj2 (arguments_are_checked_first nearest_zoom no_filter block_mean
                    no_broadcast mislabelled_volume [None; None; None] Mean false None)
             eq_refl (le_n 3) 0%nat ltac:(lia)).
    intros H. apply isclose_sqrt_spec in H.
    + vm_compute in H. discriminate H.
    + vm_compute. discriminate.
Defined.

End Resample.
